(** * Stronghold File Editor: registry, merge and export pipelines

    A shallow embedding of [src/main.py] (class [MergeWindow]) and the
    properties of its file registry, its merge pipeline, its export
    pipeline and its conflict resolution.

    Conventions of the embedding:
    - Python [str] is [string]; paths are POSIX path strings, taken as
      [pathlib] prints them (no trailing separator, no [.] component).
    - The file system is a finite map from path strings to nodes.
    - Python exceptions are values of [exn]; a computation that may raise
      and that changes the file system has type [io A].
    - The third-party libraries (Pillow, PyMuPDF, PyPDF2) and the
      [tempfile] and [shutil] modules are an injected record [Libs]:
      the general theorems hold for every behaviour of these
      collaborators, the examples fix one. *)

From Stdlib Require Import Ascii.
From stdpp Require Import gmap strings list fin_maps pretty.

(* ===================================================================== *)
(** * Strings as Python uses them                                         *)
(* ===================================================================== *)

Module PyStr.

(** [str.lower] on the ASCII range. Outside ASCII the only code point
    whose lower case is an ASCII letter is the Kelvin sign, and no
    supported extension contains a [k]. *)
Definition lower_char (c : ascii) : ascii :=
  let n := nat_of_ascii c in
  if (65 <=? n)%nat && (n <=? 90)%nat then ascii_of_nat (n + 32) else c.

Fixpoint lower (s : string) : string :=
  match s with
  | EmptyString => EmptyString
  | String c s' => String (lower_char c) (lower s')
  end.

(** White space removed by [str.strip()] within ASCII. *)
Definition is_space (c : ascii) : bool :=
  let n := nat_of_ascii c in
  ((9 <=? n)%nat && (n <=? 13)%nat) || ((28 <=? n)%nat && (n <=? 32)%nat).

Fixpoint lstrip (s : string) : string :=
  match s with
  | EmptyString => EmptyString
  | String c s' => if is_space c then lstrip s' else s
  end.

Fixpoint rstrip (s : string) : string :=
  match s with
  | EmptyString => EmptyString
  | String c s' =>
      match rstrip s' with
      | EmptyString => if is_space c then EmptyString else String c EmptyString
      | r => String c r
      end
  end.

Definition strip (s : string) : string := rstrip (lstrip s).

Definition is_empty (s : string) : bool :=
  match s with EmptyString => true | _ => false end.

Fixpoint contains (c : ascii) (s : string) : bool :=
  match s with
  | EmptyString => false
  | String d s' => bool_decide (c = d) || contains c s'
  end.

(** [str(n)] for a natural number. *)
Definition of_nat (n : nat) : string := pretty n.

(** [f"{n:03d}"]: decimal, padded with zeros to three characters. *)
Definition of_nat_03d (n : nat) : string :=
  let s := of_nat n in
  match String.length s with
  | 0 => "000" +:+ s
  | 1 => "00" +:+ s
  | 2 => "0" +:+ s
  | _ => s
  end.

(** The string ["\n"]. *)
Definition newline : string := String (ascii_of_nat 10) EmptyString.

(** [sep.join(l)] *)
Fixpoint join (sep : string) (l : list string) : string :=
  match l with
  | [] => ""
  | [s] => s
  | s :: rest => s +:+ sep +:+ join sep rest
  end.

End PyStr.

(* ===================================================================== *)
(** * [pathlib.Path] on POSIX path strings                                *)
(* ===================================================================== *)

Module Path.

(** Split at the last separator: the directory part with its trailing
    ["/"] (empty when there is no separator) and the final component. *)
Fixpoint split (p : string) : string * string :=
  match p with
  | EmptyString => ("", "")
  | String c p' =>
      let '(d, n) := split p' in
      if PyStr.is_empty d
      then (if bool_decide (c = "/"%char) then ("/", p') else ("", String c n))
      else (String c d, n)
  end.

Definition dir (p : string) : string := fst (split p).

(** [Path(p).name] *)
Definition name (p : string) : string := snd (split p).

(** Split a name at its last dot: the text before it and the text from
    it on (empty when there is no dot). *)
Fixpoint rsplit_dot (n : string) : string * string :=
  match n with
  | EmptyString => ("", "")
  | String c n' =>
      let '(a, b) := rsplit_dot n' in
      if PyStr.is_empty b
      then (if bool_decide (c = "."%char) then ("", n) else (String c a, ""))
      else (String c a, b)
  end.

(** pathlib: [i = name.rfind('.')]; the suffix is [name[i:]] when
    [0 < i < len(name) - 1] and empty otherwise. *)
Definition has_suffix (n : string) : bool :=
  let '(a, b) := rsplit_dot n in
  negb (PyStr.is_empty a) && (2 <=? String.length b)%nat.

(** [Path(p).suffix] *)
Definition suffix (p : string) : string :=
  let n := name p in
  if has_suffix n then snd (rsplit_dot n) else "".

(** [Path(p).stem] *)
Definition stem (p : string) : string :=
  let n := name p in
  if has_suffix n then fst (rsplit_dot n) else n.

Fixpoint ends_with_sep (d : string) : bool :=
  match d with
  | EmptyString => false
  | String c EmptyString => bool_decide (c = "/"%char)
  | String _ d' => ends_with_sep d'
  end.

(** [directory / name] *)
Definition joinpath (d n : string) : string :=
  if PyStr.is_empty d then n
  else if ends_with_sep d then d +:+ n
  else d +:+ "/" +:+ n.

(** The names [with_name] accepts; it raises [ValueError] on the others. *)
Definition valid_name (n : string) : bool :=
  negb (PyStr.is_empty n) && negb (PyStr.contains "/"%char n)
  && negb (bool_decide (n = ".")).

(** [Path(p).with_name(n)]: [None] stands for the [ValueError] pathlib
    raises when [p] has an empty name or [n] is not a valid name. *)
Definition with_name (p n : string) : option string :=
  if PyStr.is_empty (name p) then None
  else if valid_name n then Some (dir p +:+ n)
  else None.

(** [Path(p).with_stem(s)] is [with_name(s + suffix)]. *)
Definition with_stem (p s : string) : option string :=
  with_name p (s +:+ suffix p).

End Path.

(* ===================================================================== *)
(** * Exceptions, the file system and effectful computations              *)
(* ===================================================================== *)

(** The exception classes the program raises, catches or lets through.
    [FileNotFoundError], [PermissionError], [FileExistsError] and
    [IsADirectoryError] are subclasses of [OSError]; every class here is
    a subclass of [Exception]. *)
Inductive exn_class :=
| ImportError
| ValueError
| FileNotFoundError
| PermissionError
| FileExistsError
| IsADirectoryError
| OSError
| Exception.

(** An exception: its class and [str(exc)]. *)
Record exn := Exn { exn_cls : exn_class; exn_str : string }.

Global Instance exn_class_eq_dec : EqDecision exn_class.
Proof. solve_decision. Defined.
Global Instance exn_eq_dec : EqDecision exn.
Proof. solve_decision. Defined.

(** [isinstance(e, ImportError)] *)
Definition is_ImportError (e : exn) : bool :=
  match exn_cls e with ImportError => true | _ => false end.

(** [isinstance(e, FileNotFoundError)] *)
Definition is_FileNotFoundError (e : exn) : bool :=
  match exn_cls e with FileNotFoundError => true | _ => false end.

(** [isinstance(e, OSError)] *)
Definition is_OSError (e : exn) : bool :=
  match exn_cls e with
  | FileNotFoundError | PermissionError | FileExistsError
  | IsADirectoryError | OSError => true
  | _ => false
  end.

(** A node of the file system: a regular file, which another process may
    hold locked (it can then be neither deleted nor replaced), or a
    directory. *)
Inductive node := File (locked : bool) | Dir.

Global Instance node_eq_dec : EqDecision node.
Proof. solve_decision. Defined.

Abbreviation FS := (gmap string node).

(** [Path(p).exists()] *)
Definition exists_ (fs : FS) (p : string) : bool :=
  match fs !! p with Some _ => true | None => false end.

(** [Path(p).is_file()] *)
Definition is_file (fs : FS) (p : string) : bool :=
  match fs !! p with Some (File _) => true | _ => false end.

(** A computation on the file system that returns a value or raises. *)
Definition io (A : Type) : Type := FS → FS * (exn + A).

Definition io_ret {A} (x : A) : io A := λ fs, (fs, inr x).

Definition raise {A} (e : exn) : io A := λ fs, (fs, inl e).

Definition io_bind {A B} (m : io A) (k : A → io B) : io B := λ fs,
  match m fs with
  | (fs', inr x) => k x fs'
  | (fs', inl e) => (fs', inl e)
  end.

Declare Scope io_scope.
Delimit Scope io_scope with io.
Notation "'let!' x ':=' m 'in' k" := (io_bind m (λ x, k))
  (at level 10, x name, m at level 100, k at level 200) : io_scope.
Local Open Scope io_scope.

(** A read of the file system that may raise, as a computation. *)
Definition reading {A} (f : FS → exn + A) : io A := λ fs, (fs, f fs).

(** [Path(p).unlink()] *)
Definition unlink (p : string) : io unit := λ fs,
  match fs !! p with
  | None =>
      (fs, inl (Exn FileNotFoundError ("[Errno 2] No such file or directory: '" +:+ p +:+ "'")))
  | Some Dir =>
      (fs, inl (Exn IsADirectoryError ("[Errno 21] Is a directory: '" +:+ p +:+ "'")))
  | Some (File true) =>
      (fs, inl (Exn PermissionError ("[Errno 13] Permission denied: '" +:+ p +:+ "'")))
  | Some (File false) => (delete p fs, inr ())
  end.

(** [os.rename(src, dst)] with the POSIX meaning: an existing regular
    file at [dst] is replaced. *)
Definition os_rename (src dst : string) : io unit := λ fs,
  let arrow := "'" +:+ src +:+ "' -> '" +:+ dst +:+ "'" in
  match fs !! src with
  | None =>
      (fs, inl (Exn FileNotFoundError ("[Errno 2] No such file or directory: " +:+ arrow)))
  | Some (File true) =>
      (fs, inl (Exn PermissionError ("[Errno 13] Permission denied: " +:+ arrow)))
  | Some (File false) =>
      match fs !! dst with
      | Some Dir =>
          (fs, inl (Exn IsADirectoryError ("[Errno 21] Is a directory: " +:+ arrow)))
      | Some (File true) =>
          (fs, inl (Exn PermissionError ("[Errno 13] Permission denied: " +:+ arrow)))
      | _ => (<[dst := File false]> (delete src fs), inr ())
      end
  | Some Dir =>
      match fs !! dst with
      | Some (File _) =>
          (fs, inl (Exn OSError ("[Errno 20] Not a directory: " +:+ arrow)))
      | Some Dir =>
          (fs, inl (Exn OSError ("[Errno 39] Directory not empty: " +:+ arrow)))
      | None => (<[dst := Dir]> (delete src fs), inr ())
      end
  end.

(* ===================================================================== *)
(** * The injected collaborators                                          *)
(* ===================================================================== *)

(** Decoded pixel data is opaque; a number identifies each piece. *)
Definition Frame := nat.
Definition Page := nat.
Definition Pixmap := nat.

(** An iteration over a decoded document: the elements it yields and the
    exception, if any, that ends it in place of [StopIteration]. *)
Definition iteration (A : Type) : Type := (list A * option exn)%type.

Record Libs := {
  (** whether [import PyPDF2], [import PIL], [import fitz] succeed *)
  has_PyPDF2 : bool;
  has_PIL : bool;
  has_fitz : bool;
  (** [tempfile.NamedTemporaryFile(delete=False, suffix=s)] followed by
      [close()]: creates a file and returns its name *)
  NamedTemporaryFile : string → io string;
  (** [shutil.copy2(source, target)] *)
  copy2 : string → string → io unit;
  (** [Image.open(path)] and the frames of [ImageSequence.Iterator(image)],
      each one through [convert("RGB")] *)
  Image_frames : string → FS → exn + iteration Frame;
  (** [Image.open(path)] and [image.convert("RGB")] *)
  Image_open_rgb : string → FS → exn + Frame;
  (** [frames[0].save(name, format="PDF", save_all=True, append_images=frames[1:])] *)
  Image_save_pdf : list Frame → string → io unit;
  (** [frame.save(target, format="JPEG", quality=90)] *)
  Image_save_jpeg : Frame → string → io unit;
  (** [fitz.open(path)] and the enumeration of its pages *)
  fitz_pages : string → FS → exn + iteration Page;
  (** [page.get_pixmap(dpi=200, alpha=False)] *)
  get_pixmap : Page → exn + Pixmap;
  (** [pixmap.save(str(target))] *)
  pixmap_save : Pixmap → string → io unit;
  (** [merger.append(path)]: reads the PDF at [path] *)
  PdfMerger_append : string → FS → option exn;
  (** [with open(output_path, "wb") as handle: merger.write(handle)], the
      merger holding the documents appended so far *)
  PdfMerger_write : list string → string → io unit;
}.

(* ===================================================================== *)
(** * Conflict resolution                                                 *)
(* ===================================================================== *)

(** [path.with_stem(f"{path.stem}_{counter}")] *)
Definition numbered (path : string) (counter : nat) : option string :=
  Path.with_stem path (Path.stem path +:+ "_" +:+ PyStr.of_nat counter).

(** The [while True] loop of [_resolve_conflict_path], run for at most
    [fuel] iterations from [counter]: [None] when the loop is still
    running after that many, [Some (inl e)] when it raised [e],
    [Some (inr p)] when it returned [p]. *)
Fixpoint resolve_loop (fuel : nat) (fs : FS) (path : string) (counter : nat)
  : option (exn + string) :=
  match fuel with
  | 0 => None
  | S fuel' =>
      match numbered path counter with
      | None => Some (inl (Exn ValueError "Invalid name"))
      | Some candidate =>
          if negb (exists_ fs candidate) then Some (inr candidate)
          else resolve_loop fuel' fs path (S counter)
      end
  end.

Definition _resolve_conflict_path (fuel : nat) (fs : FS) (path : string)
  : option (exn + string) :=
  if negb (exists_ fs path) then Some (inr path)
  else resolve_loop fuel fs path 1.

(** The call as the converters make it. The loop needs at most one more
    iteration than the file system has entries ([resolve_loop_returns]
    below), so the last case is never taken. *)
Definition resolve_conflict (path : string) : io string := λ fs,
  match _resolve_conflict_path (S (size fs)) fs path with
  | Some r => (fs, r)
  | None => (fs, inl (Exn Exception "unreachable"))
  end.

(* ===================================================================== *)
(** * Format converters                                                   *)
(* ===================================================================== *)

Definition SUPPORTED_EXTENSIONS : gset string :=
  {[ ".pdf"; ".tif"; ".tiff"; ".jpg"; ".jpeg" ]}.

Definition TIFF_EXTENSIONS : gset string := {[ ".tif"; ".tiff" ]}.
Definition JPG_EXTENSIONS : gset string := {[ ".jpg"; ".jpeg" ]}.

(** [Path(path).suffix.lower()] *)
Definition suffix_lower (path : string) : string :=
  PyStr.lower (Path.suffix path).

Section Converters.

Context (L : Libs).

(** Run a loop body over the elements an iteration yields, numbered
    from [index], then re-raise the exception that ended it, if any. *)
Fixpoint for_enumerate {A} (body : nat → A → io unit) (index : nat)
    (items : list A) (stop : option exn) (exported : nat) : io nat :=
  match items with
  | [] => match stop with
          | Some e => raise e
          | None => io_ret exported
          end
  | x :: rest =>
      let! _ := body index x in
      for_enumerate body (S index) rest stop (S exported)
  end.

Definition _convert_tiff_to_pdf (path : string) : io string :=
  if negb (has_PIL L)
  then raise (Exn ImportError "Pillow is required to convert TIFF files")
  else
    let! it := reading (Image_frames L path) in
    match it with
    | (_, Some e) => raise e
    | ([], None) => raise (Exn ValueError ("No frames found in TIFF: " +:+ path))
    | (frames, None) =>
        let! descriptor_name := NamedTemporaryFile L ".pdf" in
        let! _ := Image_save_pdf L frames descriptor_name in
        io_ret descriptor_name
    end.

Definition _convert_image_to_pdf (path : string) : io string :=
  if negb (has_PIL L)
  then raise (Exn ImportError "Pillow is required to convert image files")
  else
    let! rgb_image := reading (Image_open_rgb L path) in
    let! descriptor_name := NamedTemporaryFile L ".pdf" in
    let! _ := Image_save_pdf L [rgb_image] descriptor_name in
    io_ret descriptor_name.

Definition _convert_pdf_to_jpg (path output_dir : string) : io nat :=
  if negb (has_fitz L)
  then raise (Exn ImportError "PyMuPDF is required to export PDF pages to JPG")
  else
    let! document := reading (fitz_pages L path) in
    for_enumerate
      (λ index page,
         let! pixmap := reading (λ _, get_pixmap L page) in
         let! target :=
           resolve_conflict
             (Path.joinpath output_dir
                (Path.stem path +:+ "_page" +:+ PyStr.of_nat_03d index +:+ ".jpg")) in
         pixmap_save L pixmap target)
      1 document.1 document.2 0.

Definition _convert_tiff_to_jpg (path output_dir : string) : io nat :=
  if negb (has_PIL L)
  then raise (Exn ImportError "Pillow is required to export TIFF frames to JPG")
  else
    let! image := reading (Image_frames L path) in
    for_enumerate
      (λ index frame,
         let! target :=
           resolve_conflict
             (Path.joinpath output_dir
                (Path.stem path +:+ "_frame" +:+ PyStr.of_nat_03d index +:+ ".jpg")) in
         Image_save_jpeg L frame target)
      1 image.1 image.2 0.

Definition _copy_jpg_to_output (path output_dir : string) : io nat :=
  let! target := resolve_conflict (Path.joinpath output_dir (Path.name path)) in
  let! _ := copy2 L path target in
  io_ret 1.

Definition _convert_file_to_jpg (path output_dir : string) : io nat :=
  let suffix := suffix_lower path in
  if bool_decide (suffix = ".pdf") then _convert_pdf_to_jpg path output_dir
  else if bool_decide (suffix ∈ TIFF_EXTENSIONS) then _convert_tiff_to_jpg path output_dir
  else if bool_decide (suffix ∈ JPG_EXTENSIONS) then _copy_jpg_to_output path output_dir
  else raise (Exn ValueError ("Unsupported file encountered: " +:+ path)).

End Converters.

(* ===================================================================== *)
(** * The merge pipeline                                                  *)
(* ===================================================================== *)

(** What a [try] body leaves behind for its [finally] clause: the local
    variables [temp_files] and [merger] (the documents appended so far)
    and the exception the body raised, if it raised. *)
Record merge_frame := MergeFrame {
  temp_files : list string;
  merger : list string;
  raised : option exn;
}.

Section MergePipeline.

Context (L : Libs).

(** [merger.append(p)] on the merger [m] *)
Definition append_to (tf m : list string) (p : string) (fs : FS)
    (k : list string → FS * merge_frame) : FS * merge_frame :=
  match PdfMerger_append L p fs with
  | Some e => (fs, MergeFrame tf m (Some e))
  | None => k (m ++ [p])
  end.

(** The [for path in paths] loop of [_merge_into_pdf]. *)
Fixpoint merge_loop (paths : list string) (tf m : list string) (fs : FS)
  : FS * merge_frame :=
  match paths with
  | [] => (fs, MergeFrame tf m None)
  | path :: rest =>
      let suffix := suffix_lower path in
      if bool_decide (suffix = ".pdf") then
        append_to tf m path fs (λ m', merge_loop rest tf m' fs)
      else if bool_decide (suffix ∈ TIFF_EXTENSIONS) then
        match _convert_tiff_to_pdf L path fs with
        | (fs', inl e) => (fs', MergeFrame tf m (Some e))
        | (fs', inr temp_pdf) =>
            append_to (tf ++ [temp_pdf]) m temp_pdf fs'
              (λ m', merge_loop rest (tf ++ [temp_pdf]) m' fs')
        end
      else if bool_decide (suffix ∈ JPG_EXTENSIONS) then
        match _convert_image_to_pdf L path fs with
        | (fs', inl e) => (fs', MergeFrame tf m (Some e))
        | (fs', inr temp_pdf) =>
            append_to (tf ++ [temp_pdf]) m temp_pdf fs'
              (λ m', merge_loop rest (tf ++ [temp_pdf]) m' fs')
        end
      else
        (fs, MergeFrame tf m
               (Some (Exn ValueError ("Unsupported file encountered: " +:+ path))))
  end.

(** The body of the [try]: the loop, then the write of the output. *)
Definition merge_body (paths : list string) (output_path : string) (fs : FS)
  : FS * merge_frame :=
  match merge_loop paths [] [] fs with
  | (fs1, MergeFrame tf m None) =>
      match PdfMerger_write L m output_path fs1 with
      | (fs2, inl e) => (fs2, MergeFrame tf m (Some e))
      | (fs2, inr _) => (fs2, MergeFrame tf m None)
      end
  | r => r
  end.

(** The [for temp_file in temp_files] loop of the [finally] clause:
    [FileNotFoundError] is caught and passed over, any other exception
    of [unlink] leaves the loop. *)
Fixpoint cleanup (tf : list string) : io unit :=
  match tf with
  | [] => io_ret ()
  | temp_file :: rest => λ fs,
      match unlink temp_file fs with
      | (fs', inr _) => cleanup rest fs'
      | (fs', inl e) =>
          if is_FileNotFoundError e then cleanup rest fs' else (fs', inl e)
      end
  end.

(** [try: body finally: cleanup]: an exception of the [finally] clause
    replaces the outcome of the body. ([merger.close()], first in the
    [finally] clause, drops the merger's inputs and touches neither the
    file system nor [temp_files].) *)
Definition _merge_into_pdf (paths : list string) (output_path : string) : io unit :=
  if negb (has_PyPDF2 L)
  then raise (Exn ImportError "PyPDF2 is required to write PDF output")
  else λ fs,
    let '(fs1, frame) := merge_body paths output_path fs in
    match cleanup (temp_files frame) fs1 with
    | (fs2, inl e) => (fs2, inl e)
    | (fs2, inr _) =>
        match raised frame with
        | Some e => (fs2, inl e)
        | None => (fs2, inr ())
        end
    end.

End MergePipeline.

(* ===================================================================== *)
(** * The window: file list, feedback line and message boxes              *)
(* ===================================================================== *)

(** A row of the list widget: its text, its [UserRole] data (the path)
    and whether it is selected. *)
Record Item := { text : string; data : string; selected : bool }.

Global Instance Item_eq_dec : EqDecision Item.
Proof. solve_decision. Defined.

Inductive MessageBox :=
| Information (message : string)
| Critical (message : string)
| Warning (title message : string)
| Question (title message : string).

(** The state of a [MergeWindow]: the rows of [file_list], the text of
    the [feedback] label, and the message boxes shown so far. *)
Record Window := {
  file_list : list Item;
  feedback : string;
  boxes : list MessageBox;
}.

Definition _show_error (message : string) (w : Window) : Window :=
  {| file_list := file_list w;
     feedback := message;
     boxes := boxes w ++ [Critical message] |}.

Definition _show_info (message : string) (w : Window) : Window :=
  {| file_list := file_list w;
     feedback := message;
     boxes := boxes w ++ [Information message] |}.

Definition show_box (b : MessageBox) (w : Window) : Window :=
  {| file_list := file_list w; feedback := feedback w; boxes := boxes w ++ [b] |}.

Definition set_feedback (message : string) (w : Window) : Window :=
  {| file_list := file_list w; feedback := message; boxes := boxes w |}.

Definition set_file_list (l : list Item) (w : Window) : Window :=
  {| file_list := l; feedback := feedback w; boxes := boxes w |}.

Definition _gather_paths (w : Window) : list string := data <$> file_list w.

(** A window showing the rows [l], with an empty feedback line. *)
Definition window_of (l : list Item) : Window :=
  {| file_list := l; feedback := ""; boxes := [] |}.

(* ===================================================================== *)
(** * The export pipeline                                                 *)
(* ===================================================================== *)

Section ExportPipeline.

Context (L : Libs).

(** The [for path in paths] loop of [_export_to_jpg] with its locals
    [exported_files] and [issues]. [inl exc] is the exit through the
    [except ImportError] clause, which returns from the whole method. *)
Fixpoint export_loop (paths : list string) (output_dir : string)
    (exported_files : nat) (issues : list string) (fs : FS)
  : FS * (exn + (nat * list string)) :=
  match paths with
  | [] => (fs, inr (exported_files, issues))
  | path :: rest =>
      match _convert_file_to_jpg L path output_dir fs with
      | (fs', inr n) =>
          export_loop rest output_dir (exported_files + n) issues fs'
      | (fs', inl exc) =>
          if is_ImportError exc then (fs', inl exc)
          else
            export_loop rest output_dir exported_files
              (issues ++ [Path.name path +:+ ": " +:+ exn_str exc]) fs'
      end
  end.

(** [_export_to_jpg]; [destination] is the folder the directory dialog
    returns (empty when the user cancels it). *)
Definition _export_to_jpg (destination : string) (w : Window) (fs : FS)
  : Window * FS :=
  let paths := _gather_paths w in
  match paths with
  | [] => (_show_info "Add at least one file before exporting." w, fs)
  | _ =>
      if PyStr.is_empty destination then (w, fs)
      else
        let output_dir := destination in
        match export_loop paths output_dir 0 [] fs with
        | (fs', inl exc) =>
            (_show_error ("Missing dependency: " +:+ exn_str exc
                          +:+ ". Install the required package and try again.") w,
             fs')
        | (fs', inr (exported_files, issues)) =>
            let w1 :=
              if bool_decide (exported_files ≠ 0)
              then _show_info ("Exported " +:+ PyStr.of_nat exported_files
                               +:+ " JPG file(s) to " +:+ output_dir +:+ ".") w
              else _show_error "No JPG files were exported." w in
            let w2 :=
              match issues with
              | [] => w1
              | _ => show_box (Warning "Export completed with issues"
                                 (PyStr.join PyStr.newline issues)) w1
              end in
            (w2, fs')
        end
  end.

End ExportPipeline.

(* ===================================================================== *)
(** * The file registry                                                   *)
(* ===================================================================== *)

(** [_path_already_listed], on the rows of the list widget. *)
Fixpoint _path_already_listed (l : list Item) (path : string) : bool :=
  match l with
  | [] => false
  | i :: rest =>
      if bool_decide (data i = path) then true else _path_already_listed rest path
  end.

(** [QListWidgetItem(candidate.name)] with [setData(UserRole, path)] *)
Definition new_item (path : string) : Item :=
  {| text := Path.name path; data := path; selected := false |}.

(** The [for path in paths] loop of [_add_path_batch] with its local
    [added]. *)
Fixpoint add_loop (fs : FS) (paths : list string) (l : list Item) (added : nat)
  : list Item * nat :=
  match paths with
  | [] => (l, added)
  | path :: rest =>
      if negb (is_file fs path) then add_loop fs rest l added
      else if negb (bool_decide (suffix_lower path ∈ SUPPORTED_EXTENSIONS))
      then add_loop fs rest l added
      else if _path_already_listed l path then add_loop fs rest l added
      else add_loop fs rest (l ++ [new_item path]) (S added)
  end.

(** [_add_path_batch]: the window it leaves and the final value of
    [added]. *)
Definition _add_path_batch (fs : FS) (paths : list string) (w : Window)
  : Window * nat :=
  match paths with
  | [] => (w, 0)
  | _ =>
      let '(l, added) := add_loop fs paths (file_list w) 0 in
      let w' := set_file_list l w in
      (if bool_decide (added ≠ 0)
       then set_feedback ("Added " +:+ PyStr.of_nat added +:+ " file(s).") w'
       else set_feedback "No new supported files were added." w',
       added)
  end.

(** [_remove_selected] *)
Definition _remove_selected (w : Window) : Window :=
  if bool_decide (Forall (λ i, selected i = false) (file_list w)) then w
  else
    set_feedback "Removed selected entries."
      (set_file_list (filter (λ i, selected i = false) (file_list w)) w).

(** [sorted({row(item) for item in selectedItems()})] *)
Fixpoint selected_rows_from (row : nat) (l : list Item) : list nat :=
  match l with
  | [] => []
  | i :: rest =>
      if selected i then row :: selected_rows_from (S row) rest
      else selected_rows_from (S row) rest
  end.

Definition selected_rows (w : Window) : list nat :=
  selected_rows_from 0 (file_list w).

Definition setSelected (b : bool) (i : Item) : Item :=
  {| text := text i; data := data i; selected := b |}.

(** [insertItem(target, item)] *)
Definition insertItem (target : nat) (i : Item) (l : list Item) : list Item :=
  take target l ++ i :: drop target l.

(** One iteration of the loop of [_move_selection] on [row]. *)
Definition move_row (offset : Z) (l : list Item) (row : nat) : list Item :=
  let target := (Z.of_nat row + offset)%Z in
  if bool_decide (target < 0)%Z || bool_decide (target >= Z.of_nat (length l))%Z
  then l
  else
    match l !! row with
    | None => l
    | Some item => insertItem (Z.to_nat target) (setSelected true item) (delete row l)
    end.

(** [_move_selection] *)
Definition _move_selection (offset : Z) (w : Window) : Window :=
  if bool_decide (offset = 0)%Z then w
  else
    match selected_rows w with
    | [] => w
    | rows =>
        let iterator := if bool_decide (offset < 0)%Z then rows else reverse rows in
        set_feedback "Reordered selection."
          (set_file_list (foldl (move_row offset) (file_list w) iterator) w)
    end.

(** The ways out of [_rename_item]. *)
Inductive rename_exit :=
| NoItem
| Cancelled
| UnsupportedExtension
| NameConflictDeclined
| RenameFailed
| Renamed
| Uncaught (e : exn).

(** The name a rename gives the file: the stripped input, with the
    lower-cased extension of the original path appended when the input
    has no extension. *)
Definition completed_name (original_path new_name : string) : string :=
  if PyStr.is_empty (suffix_lower new_name)
  then new_name +:+ suffix_lower original_path
  else new_name.

Definition set_item (row : nat) (i : Item) (w : Window) : Window :=
  set_file_list (<[row := i]> (file_list w)) w.

(** [_rename_item] on the item at [row]; [new_name] and [ok] are what the
    input dialog returns, [overwrite] whether the user answers Yes when
    asked to overwrite. *)
Definition _rename_item (row : nat) (new_name : string) (ok overwrite : bool)
    (w : Window) (fs : FS) : Window * FS * rename_exit :=
  match file_list w !! row with
  | None => (w, fs, NoItem)
  | Some item =>
      let original_path := data item in
      if negb ok || PyStr.is_empty (PyStr.strip new_name) then (w, fs, Cancelled)
      else
        let new_name := PyStr.strip new_name in
        let new_suffix := suffix_lower new_name in
        if negb (PyStr.is_empty new_suffix)
           && negb (bool_decide (new_suffix ∈ SUPPORTED_EXTENSIONS))
        then
          (_show_error "Unsupported extension. Keep the file as PDF, TIF, TIFF, or JPG." w,
           fs, UnsupportedExtension)
        else
          match Path.with_name original_path (completed_name original_path new_name) with
          | None => (w, fs, Uncaught (Exn ValueError "Invalid name"))
          | Some target_path =>
              let asked := exists_ fs target_path in
              let w :=
                if asked
                then show_box (Question "Overwrite file?"
                                 (Path.name target_path
                                  +:+ " already exists. Overwrite it?")) w
                else w in
              if asked && negb overwrite then (w, fs, NameConflictDeclined)
              else
                match os_rename original_path target_path fs with
                | (fs', inl exc) =>
                    if is_OSError exc
                    then (_show_error ("Failed to rename file: " +:+ exn_str exc) w,
                          fs', RenameFailed)
                    else (w, fs', Uncaught exc)
                | (fs', inr _) =>
                    (set_feedback ("Renamed to " +:+ Path.name target_path +:+ ".")
                       (set_item row
                          {| text := Path.name target_path;
                             data := target_path;
                             selected := selected item |} w),
                     fs', Renamed)
                end
          end
  end.

(** The conditions [add] puts on a path by itself: an existing regular
    file with a supported extension. *)
Definition eligible (fs : FS) (path : string) : bool :=
  is_file fs path && bool_decide (suffix_lower path ∈ SUPPORTED_EXTENSIONS).

(** The elements of [l] that are not in [seen], each kept at its first
    occurrence only. *)
Fixpoint first_occurrences (seen l : list string) : list string :=
  match l with
  | [] => []
  | x :: rest =>
      if bool_decide (x ∈ seen) then first_occurrences seen rest
      else x :: first_occurrences (x :: seen) rest
  end.

(** [item.setSelected(sel row)] on every row: the user changing the
    selection. *)
Definition select_rows (sel : nat → bool) (w : Window) : Window :=
  set_file_list (imap (λ row i, setSelected (sel row) i) (file_list w)) w.

(** The registry operations, as steps of a window and its file system. *)
Inductive registry_step : Window * FS → Window * FS → Prop :=
| step_select sel w fs :
    registry_step (w, fs) (select_rows sel w, fs)
| step_add paths w fs :
    registry_step (w, fs) ((_add_path_batch fs paths w).1, fs)
| step_remove w fs :
    registry_step (w, fs) (_remove_selected w, fs)
| step_reorder offset w fs :
    registry_step (w, fs) (_move_selection offset w, fs)
| step_rename row new_name ok overwrite w fs :
    registry_step (w, fs)
      ((_rename_item row new_name ok overwrite w fs).1.1,
       (_rename_item row new_name ok overwrite w fs).1.2).

(** The states a window reaches from an empty list. *)
Inductive reachable : Window * FS → Prop :=
| reachable_init fs : reachable (window_of [], fs)
| reachable_step s s' : reachable s → registry_step s s' → reachable s'.

(* ===================================================================== *)
(** * The pipelines as the specification words them                       *)
(* ===================================================================== *)

Section Isolation.

Context (L : Libs).

(** Export as the specification describes it: every path is converted
    in turn, each on the file system the previous ones left, and no
    failure stops the run. The result lists each path with the outcome
    of its conversion. *)
Fixpoint convert_each (paths : list string) (output_dir : string) (fs : FS)
  : FS * list (string * (exn + nat)) :=
  match paths with
  | [] => (fs, [])
  | path :: rest =>
      let '(fs', r) := _convert_file_to_jpg L path output_dir fs in
      let '(fs'', rs) := convert_each rest output_dir fs' in
      (fs'', (path, r) :: rs)
  end.

(** The sum of the outputs of the files that did not fail. *)
Definition exported_total (rs : list (string * (exn + nat))) : nat :=
  sum_list ((λ r, match r.2 with inr n => n | inl _ => 0 end) <$> rs).

(** One line ["<filename>: <message>"] for each file that failed. *)
Definition issue_lines (rs : list (string * (exn + nat))) : list string :=
  omap (λ r, match r.2 with
             | inl exc => Some (Path.name r.1 +:+ ": " +:+ exn_str exc)
             | inr _ => None
             end) rs.

Definition missing_dependency (r : string * (exn + nat)) : bool :=
  match r.2 with inl exc => is_ImportError exc | inr _ => false end.

(** "Every failure is isolated": the loop of [_export_to_jpg] ends with
    the count and the issues of [convert_each]. *)
Definition isolates_failures (paths : list string) (output_dir : string)
    (fs : FS) : Prop :=
  export_loop L paths output_dir 0 [] fs
  = ((convert_each paths output_dir fs).1,
     inr (exported_total (convert_each paths output_dir fs).2,
          issue_lines (convert_each paths output_dir fs).2)).

(** What the [try] body of merge came to. *)
Definition body_outcome (frame : merge_frame) : exn + unit :=
  match raised frame with Some e => inl e | None => inr () end.

(** "Every deletion failure is swallowed": merge ends as its [try] body
    did. *)
Definition deletion_failures_swallowed (paths : list string)
    (output_path : string) (fs : FS) : Prop :=
  (_merge_into_pdf L paths output_path fs).2
  = body_outcome (merge_body L paths output_path fs).2.

End Isolation.

(** The exceptions [unlink] raises while the cleanup loop runs over [tf]
    from the file system [fs]. *)
Fixpoint deletion_failures (tf : list string) (fs : FS) : list exn :=
  match tf with
  | [] => []
  | temp_file :: rest =>
      match unlink temp_file fs with
      | (fs', inr _) => deletion_failures rest fs'
      | (fs', inl e) =>
          e :: (if is_FileNotFoundError e then deletion_failures rest fs' else [])
      end
  end.

(* ===================================================================== *)
(** * Sample worlds                                                       *)
(* ===================================================================== *)

(** Writing a regular file at [p]. *)
Definition write_file (p : string) : io unit := λ fs,
  (<[p := File false]> fs, inr ()).

(** Collaborators for the examples: Pillow and PyPDF2 are installed,
    PyMuPDF is when [fitz_installed]; saving a PDF is [save_pdf]; every
    TIFF has two frames and every PDF two pages, except that files named
    [bad.*] do not decode; the temporary file is [/tmp/tmpq7.pdf]. *)
Definition sample_libs (fitz_installed : bool)
    (save_pdf : list Frame → string → io unit) : Libs := {|
  has_PyPDF2 := true;
  has_PIL := true;
  has_fitz := fitz_installed;
  NamedTemporaryFile := λ suffix fs,
    (<["/tmp/tmpq7" +:+ suffix := File false]> fs, inr ("/tmp/tmpq7" +:+ suffix));
  copy2 := λ _ target, write_file target;
  Image_frames := λ path _,
    if bool_decide (Path.stem path = "bad")
    then inl (Exn OSError ("cannot identify image file '" +:+ path +:+ "'"))
    else inr ([0; 1], None);
  Image_open_rgb := λ path _,
    if bool_decide (Path.stem path = "bad")
    then inl (Exn OSError ("cannot identify image file '" +:+ path +:+ "'"))
    else inr 0;
  Image_save_pdf := save_pdf;
  Image_save_jpeg := λ _ target, write_file target;
  fitz_pages := λ path _,
    if bool_decide (Path.stem path = "bad")
    then inl (Exn Exception ("Failed to open file '" +:+ path +:+ "'."))
    else inr ([0; 1], None);
  get_pixmap := λ page, inr page;
  pixmap_save := λ _ target, write_file target;
  PdfMerger_append := λ _ _, None;
  PdfMerger_write := λ _ output_path, write_file output_path;
|}.

(** Ways for the save of a temporary PDF to go: it succeeds; it succeeds
    and another process then removes the file, or holds it locked; it
    fails on a full disk. *)
Definition saving : list Frame → string → io unit := λ _, write_file.
Definition vanishing : list Frame → string → io unit :=
  λ _ name fs, (delete name fs, inr ()).
Definition locking : list Frame → string → io unit :=
  λ _ name fs, (<[name := File true]> fs, inr ()).
Definition disk_full : list Frame → string → io unit :=
  λ _ _, raise (Exn OSError "[Errno 28] No space left on device").

Definition regular_files (paths : list string) : FS :=
  list_to_map ((λ p, (p, File false)) <$> paths).

Definition row_of (sel : bool) (path : string) : Item :=
  {| text := Path.name path; data := path; selected := sel |}.

(* ===================================================================== *)
(** * The rest of the window: merge dialog, drag filter, TIFF merge       *)
(* ===================================================================== *)

(** [Path(p).with_suffix(s)] for a suffix [s] that starts with a dot:
    [None] stands for the [ValueError] pathlib raises when [p] has an
    empty name. The old suffix, if any, is replaced. *)
Definition with_suffix (p s : string) : option string :=
  if PyStr.is_empty (Path.name p) then None
  else Some (Path.dir p +:+ Path.stem p +:+ s).

(** [Path(p).parent / n]: the path named [n] in the directory of [p]. *)
Definition sibling (p n : string) : string := Path.dir p +:+ n.

(** Lines 230-235 of [_merge_files]: the output path with its extension
    made [.pdf]. *)
Definition pdf_output_path (output_path : string) : option string :=
  if bool_decide (suffix_lower output_path ≠ ".pdf") then
    if negb (PyStr.is_empty (Path.suffix output_path))
    then with_suffix output_path ".pdf"
    else Some (sibling output_path (Path.name output_path +:+ ".pdf"))
  else Some output_path.

(** [_merge_files]; [output_path] is what the save dialog returns (empty
    when the user cancels it). The third component is the exception that
    leaves the method uncaught, if any. *)
Definition _merge_files (L : Libs) (output_path : string) (w : Window) (fs : FS)
  : Window * FS * option exn :=
  let paths := _gather_paths w in
  match paths with
  | [] => (_show_info "Add at least one file before merging." w, fs, None)
  | _ =>
      if PyStr.is_empty output_path then (w, fs, None)
      else
        match pdf_output_path output_path with
        | None => (w, fs, Some (Exn ValueError "empty name"))
        | Some output_path_obj =>
            match _merge_into_pdf L paths output_path_obj fs with
            | (fs', inl exc) =>
                if is_ImportError exc
                then (_show_error ("Missing dependency: " +:+ exn_str exc
                                   +:+ ". Install the required package and try again.") w,
                      fs', None)
                else (_show_error ("Merge failed: " +:+ exn_str exc) w, fs', None)
            | (fs', inr _) =>
                (_show_info ("Merged " +:+ PyStr.of_nat (length paths)
                             +:+ " file(s) into " +:+ output_path_obj +:+ ".") w,
                 fs', None)
            end
        end
  end.

(** [_contains_supported_files], on the local paths of the URLs. *)
Fixpoint _contains_supported_files (fs : FS) (urls : list string) : bool :=
  match urls with
  | [] => false
  | local_path :: rest =>
      if negb (is_file fs local_path) then _contains_supported_files fs rest
      else if bool_decide (suffix_lower local_path ∈ SUPPORTED_EXTENSIONS) then true
      else _contains_supported_files fs rest
  end.

(** [dropEvent]: the non-empty local paths of the dropped URLs go to
    [_add_path_batch]; a drop without URLs is ignored. *)
Definition dropEvent (fs : FS) (hasUrls : bool) (urls : list string) (w : Window)
  : Window :=
  if negb hasUrls then w
  else (_add_path_batch fs (filter (λ p, PyStr.is_empty p = false) urls) w).1.

(** The [for path in paths] loop of [_merge_into_tiff] with its local
    [frames]. *)
Fixpoint tiff_frames_loop (L : Libs) (paths : list string) (frames : list Frame)
    (fs : FS) : exn + list Frame :=
  match paths with
  | [] => inr frames
  | path :: rest =>
      if negb (bool_decide (suffix_lower path ∈ TIFF_EXTENSIONS))
      then inl (Exn ValueError "Only TIFF files can be merged into a TIFF output.")
      else
        match Image_frames L path fs with
        | inl e => inl e
        | inr (_, Some e) => inl e
        | inr (image, None) => tiff_frames_loop L rest (frames ++ image) fs
        end
  end.

(** [_merge_into_tiff]; [save_tiff] is
    [first.save(output_path, format="TIFF", save_all=True, append_images=rest, ...)]. *)
Definition _merge_into_tiff (L : Libs) (save_tiff : list Frame → string → io unit)
    (paths : list string) (output_path : string) : io unit :=
  if negb (has_PIL L)
  then raise (Exn ImportError "Pillow is required to write TIFF output")
  else
    let! frames := reading (tiff_frames_loop L paths []) in
    match frames with
    | [] => raise (Exn ValueError "No image frames to write.")
    | _ => save_tiff frames output_path
    end.


(** What identifies an entry: its text and its path. *)
Definition entry (i : Item) : string * string := (text i, data i).

(* ===================================================================== *)
(** * Checks of the embedding on concrete inputs                          *)
(* ===================================================================== *)

Example lower_ex : PyStr.lower ".PdF" = ".pdf".
Proof. reflexivity. Qed.
Example strip_ex : PyStr.strip "  a b.pdf  " = "a b.pdf".
Proof. reflexivity. Qed.
Example of_nat_ex : PyStr.of_nat 12 = "12" ∧ PyStr.of_nat_03d 7 = "007".
Proof. split; vm_compute; reflexivity. Qed.
Example name_ex : Path.name "/home/u/scan.v2.TIFF" = "scan.v2.TIFF".
Proof. reflexivity. Qed.
Example suffix_ex :
  Path.suffix "/home/u/scan.v2.TIFF" = ".TIFF" ∧ Path.suffix "/d/.bashrc" = ""
  ∧ Path.suffix "/d/name." = "" ∧ Path.stem "/home/u/scan.v2.TIFF" = "scan.v2".
Proof. repeat split; reflexivity. Qed.
Example with_stem_ex :
  Path.with_stem "/out/name.jpg" "name_2" = Some "/out/name_2.jpg"
  ∧ Path.with_name "/out/name.jpg" "a/b.pdf" = None.
Proof. split; reflexivity. Qed.

Example export_ex :
  _export_to_jpg (sample_libs true saving) "/out"
    (window_of [row_of false "/in/x.pdf"; row_of false "/in/bad.tif"])
    (regular_files ["/in/x.pdf"; "/in/bad.tif"])
  = ({| file_list := [row_of false "/in/x.pdf"; row_of false "/in/bad.tif"];
        feedback := "Exported 2 JPG file(s) to /out.";
        boxes := [Information "Exported 2 JPG file(s) to /out.";
                  Warning "Export completed with issues"
                    "bad.tif: cannot identify image file '/in/bad.tif'"] |},
     regular_files ["/in/x.pdf"; "/in/bad.tif";
                    "/out/x_page001.jpg"; "/out/x_page002.jpg"]).
Proof. vm_compute. reflexivity. Qed.

Example merge_ex :
  _merge_into_pdf (sample_libs true saving)
    ["/in/a.jpg"; "/in/b.pdf"] "/out/m.pdf"
    (regular_files ["/in/a.jpg"; "/in/b.pdf"])
  = (regular_files ["/in/a.jpg"; "/in/b.pdf"; "/out/m.pdf"], inr ()).
Proof. vm_compute. reflexivity. Qed.

Example resolve_ex :
  _resolve_conflict_path 3
    (regular_files ["/out/name.jpg"; "/out/name_1.jpg"]) "/out/name.jpg"
  = Some (inr "/out/name_2.jpg").
Proof. vm_compute. reflexivity. Qed.

Example move_ex :
  data <$> file_list (_move_selection 1
     (window_of [row_of true "a"; row_of false "b"; row_of true "c"; row_of false "d"]))
  = ["b"; "a"; "d"; "c"].
Proof. vm_compute. reflexivity. Qed.

(* ===================================================================== *)
(** * Reordering                                                          *)
(* ===================================================================== *)

Lemma move_row_below_zero (l : list Item) :
  move_row (-1) l 0 = l.
Proof. reflexivity. Qed.

Lemma move_row_past_end (l : list Item) (row : nat) :
  length l ≤ S row → move_row 1 l row = l.
Proof.
  intros Hlen. unfold move_row.
  rewrite (bool_decide_eq_true_2 (Z.of_nat row + 1 >= Z.of_nat (length l))%Z) by lia.
  by rewrite orb_true_r.
Qed.

(** C9. Moving up when the selection is exactly the first row, and moving
    down when it is exactly the last row, leave the rows of the registry
    as they are. *)
Theorem move_selection_boundary_noop (w : Window) (offset : Z) :
  (offset = (-1)%Z ∧ selected_rows w = [0])
  ∨ (offset = 1%Z ∧ selected_rows w = [length (file_list w) - 1]) →
  file_list (_move_selection offset w) = file_list w.
Proof.
  intros [[-> Hsel] | [-> Hsel]]; unfold _move_selection; rewrite Hsel; simpl.
  - apply move_row_below_zero.
  - apply move_row_past_end. lia.
Qed.

Lemma move_selection_boundary_noop_witness :
  file_list (_move_selection (-1)
     (window_of [row_of true "/d/a.pdf"; row_of false "/d/b.tif"; row_of false "/d/c.jpg"]))
  = [row_of true "/d/a.pdf"; row_of false "/d/b.tif"; row_of false "/d/c.jpg"]
  ∧ file_list (_move_selection 1
     (window_of [row_of false "/d/a.pdf"; row_of false "/d/b.tif"; row_of true "/d/c.jpg"]))
  = [row_of false "/d/a.pdf"; row_of false "/d/b.tif"; row_of true "/d/c.jpg"].
Proof.
  split.
  - apply (move_selection_boundary_noop
             (window_of [row_of true "/d/a.pdf"; row_of false "/d/b.tif";
                         row_of false "/d/c.jpg"]) (-1)).
    left. split; reflexivity.
  - apply (move_selection_boundary_noop
             (window_of [row_of false "/d/a.pdf"; row_of false "/d/b.tif";
                         row_of true "/d/c.jpg"]) 1).
    right. split; reflexivity.
Defined.

(** C5. Moving down a contiguous selection that reaches the last row
    reorders the selected rows: with [b] and [c] selected in [a; b; c],
    the last row [c] lies out of bounds and is skipped, after which [b] is
    moved past it, giving [a; c; b] where stacking against the boundary
    would leave [a; b; c]. *)
Theorem move_down_block_at_end_reorders :
  let w := window_of [row_of false "/d/a.pdf"; row_of true "/d/b.pdf";
                      row_of true "/d/c.pdf"] in
  selected_rows w = [1; 2]
  ∧ _gather_paths (_move_selection 1 w) = ["/d/a.pdf"; "/d/c.pdf"; "/d/b.pdf"]
  ∧ _gather_paths (_move_selection 1 w) ≠ _gather_paths w.
Proof. repeat split. intros H. discriminate H. Qed.

(** ** A block that stops short of the last row *)

Lemma selected_rows_from_app (row : nat) (l1 l2 : list Item) :
  selected_rows_from row (l1 ++ l2)
  = selected_rows_from row l1 ++ selected_rows_from (row + length l1) l2.
Proof.
  revert row. induction l1 as [|i l1 IH]; intros row; simpl.
  { by rewrite Nat.add_0_r. }
  rewrite IH, <- Nat.add_succ_comm. by destruct (selected i).
Qed.

Lemma selected_rows_from_none (row : nat) (l : list Item) :
  Forall (λ i, selected i = false) l → selected_rows_from row l = [].
Proof.
  intros H. revert row. induction H as [|i l Hi _ IH]; intros row; simpl; [done|].
  by rewrite Hi, IH.
Qed.

Lemma selected_rows_from_all (row : nat) (l : list Item) :
  Forall (λ i, selected i = true) l → selected_rows_from row l = seq row (length l).
Proof.
  intros H. revert row. induction H as [|i l Hi _ IH]; intros row; simpl; [done|].
  by rewrite Hi, IH.
Qed.

Lemma setSelected_selected (l : list Item) :
  Forall (λ i, selected i = true) l → setSelected true <$> l = l.
Proof.
  induction 1 as [|i l Hi _ IH]; [done|].
  rewrite fmap_cons, IH. f_equal. destruct i; simpl in *. by subst.
Qed.

(** Moving down the row just before [x] exchanges the two. *)
Lemma move_row_down_swap (pre post : list Item) (m x : Item) :
  move_row 1 (pre ++ m :: x :: post) (length pre)
  = pre ++ x :: setSelected true m :: post.
Proof.
  unfold move_row.
  rewrite bool_decide_eq_false_2 by lia.
  rewrite bool_decide_eq_false_2 by (rewrite length_app; simpl; lia).
  simpl. rewrite list_lookup_middle by done. rewrite delete_middle.
  unfold insertItem.
  replace (Z.to_nat (Z.of_nat (length pre) + 1)) with (length (pre ++ [x])).
  2:{ rewrite length_app. simpl. lia. }
  rewrite (cons_middle x pre post), app_assoc.
  rewrite take_app_length, drop_app_length. by rewrite <- app_assoc.
Qed.

Lemma move_block_down (mid pre post : list Item) (x : Item) :
  foldl (move_row 1) (pre ++ mid ++ x :: post) (reverse (seq (length pre) (length mid)))
  = pre ++ x :: (setSelected true <$> mid) ++ post.
Proof.
  revert post. induction mid as [|m mid IH] using rev_ind; intros post; [done|].
  rewrite length_app. simpl. rewrite seq_app. simpl.
  rewrite reverse_snoc. simpl.
  rewrite <- (app_assoc mid [m]). simpl.
  rewrite (app_assoc pre mid), <- (length_app pre mid).
  rewrite move_row_down_swap, <- app_assoc.
  rewrite IH, fmap_app. simpl. by rewrite <- app_assoc.
Qed.

(** X5. Moving down a contiguous selection that stops short of the last row
    shifts the block by one slot: the row [x] below it comes to stand
    above it, and the selected rows keep their order. *)
Lemma move_down_block_inside (w : Window) (pre mid post : list Item) (x : Item) :
  file_list w = pre ++ mid ++ x :: post →
  mid ≠ [] →
  Forall (λ i, selected i = false) pre →
  Forall (λ i, selected i = true) mid →
  selected x = false →
  Forall (λ i, selected i = false) post →
  file_list (_move_selection 1 w) = pre ++ x :: mid ++ post.
Proof.
  intros Hl Hmid Hpre Hsel Hx Hpost.
  assert (Hrows : selected_rows w = seq (length pre) (length mid)).
  { unfold selected_rows. rewrite Hl, !selected_rows_from_app. simpl.
    rewrite Hx, (selected_rows_from_none _ pre), (selected_rows_from_none _ post),
      (selected_rows_from_all _ mid) by done.
    by rewrite app_nil_r. }
  unfold _move_selection. rewrite Hrows. simpl.
  destruct (seq (length pre) (length mid)) as [|r rows] eqn:Hseq.
  { apply (f_equal length) in Hseq. rewrite length_seq in Hseq.
    by destruct mid. }
  rewrite <- Hseq. simpl. rewrite Hl, move_block_down.
  by rewrite setSelected_selected.
Qed.

(* ===================================================================== *)
(** * Adding paths                                                        *)
(* ===================================================================== *)

Lemma path_already_listed_spec (l : list Item) (path : string) :
  _path_already_listed l path = bool_decide (path ∈ data <$> l).
Proof.
  induction l as [|i l IH]; simpl; [done|].
  destruct (decide (data i = path)) as [Hi|Hi].
  - rewrite (bool_decide_eq_true_2 _ Hi). symmetry.
    apply bool_decide_eq_true. subst. left.
  - rewrite (bool_decide_eq_false_2 _ Hi), IH.
    apply bool_decide_ext. rewrite elem_of_cons. naive_solver.
Qed.

Lemma first_occurrences_seen_perm (seen seen' l : list string) :
  (∀ x, x ∈ seen ↔ x ∈ seen') →
  first_occurrences seen l = first_occurrences seen' l.
Proof.
  revert seen seen'. induction l as [|x l IH]; intros seen seen' Heq; simpl; [done|].
  rewrite (bool_decide_ext _ _ (Heq x)). case_bool_decide; [by apply IH|].
  f_equal. apply IH. intros y. rewrite !elem_of_cons. naive_solver.
Qed.

Lemma add_loop_spec (fs : FS) (paths : list string) (l : list Item) (added : nat) :
  add_loop fs paths l added
  = (l ++ (new_item <$> first_occurrences (data <$> l)
                          (filter (λ p, eligible fs p = true) paths)),
     added + length (first_occurrences (data <$> l)
                       (filter (λ p, eligible fs p = true) paths))).
Proof.
  revert l added. induction paths as [|p paths IH]; intros l added.
  { simpl. by rewrite app_nil_r, Nat.add_0_r. }
  rewrite filter_cons. cbn [add_loop].
  destruct (decide (eligible fs p = true)) as [He|He].
  - unfold eligible in He. apply andb_true_iff in He as [-> ->]. simpl.
    rewrite path_already_listed_spec.
    case_bool_decide as Hin; [by rewrite IH|].
    rewrite IH. simpl. rewrite <- app_assoc. simpl.
    rewrite (first_occurrences_seen_perm (data <$> l ++ [new_item p]) (p :: (data <$> l))).
    + f_equal. lia.
    + intros x. rewrite fmap_app. simpl.
      rewrite elem_of_app, !elem_of_cons, elem_of_nil. naive_solver.
  - rewrite IH. unfold eligible in He. apply not_true_is_false in He.
    apply andb_false_iff in He as [-> | ->]; simpl; [done|].
    by destruct (is_file fs p).
Qed.

Lemma elem_of_first_occurrences (seen l : list string) (x : string) :
  x ∈ first_occurrences seen l ↔ x ∈ l ∧ x ∉ seen.
Proof.
  revert seen. induction l as [|y l IH]; intros seen; simpl.
  { rewrite elem_of_nil. naive_solver. }
  case_bool_decide as Hy.
  - rewrite IH, elem_of_cons. naive_solver.
  - rewrite elem_of_cons, IH, !elem_of_cons.
    destruct (decide (x = y)); naive_solver.
Qed.

Lemma first_occurrences_NoDup (seen l : list string) :
  NoDup (first_occurrences seen l).
Proof.
  revert seen. induction l as [|y l IH]; intros seen; simpl; [constructor|].
  case_bool_decide; [apply IH|].
  constructor; [|apply IH].
  rewrite elem_of_first_occurrences, elem_of_cons. naive_solver.
Qed.


Lemma add_path_batch_unfold (fs : FS) (paths : list string) (w : Window) :
  file_list (_add_path_batch fs paths w).1 = (add_loop fs paths (file_list w) 0).1
  ∧ (_add_path_batch fs paths w).2 = (add_loop fs paths (file_list w) 0).2
  ∧ (paths ≠ [] →
     feedback (_add_path_batch fs paths w).1
     = if bool_decide ((add_loop fs paths (file_list w) 0).2 ≠ 0)
       then "Added " +:+ PyStr.of_nat (add_loop fs paths (file_list w) 0).2 +:+ " file(s)."
       else "No new supported files were added.").
Proof.
  destruct paths as [|p paths]; [done|].
  unfold _add_path_batch.
  destruct (add_loop fs (p :: paths) (file_list w) 0) as [l added].
  cbn [fst snd]. by case_bool_decide.
Qed.



Example add_ex :
  _add_path_batch (regular_files ["/d/a.pdf"; "/d/b.TIF"; "/d/notes.txt"])
    ["/d/b.TIF"; "/d/notes.txt"; "/d/a.pdf"; "/d/missing.jpg"; "/d/b.TIF"]
    (window_of [row_of false "/d/a.pdf"])
  = ({| file_list := [row_of false "/d/a.pdf"; row_of false "/d/b.TIF"];
        feedback := "Added 1 file(s).";
        boxes := [] |}, 1).
Proof. vm_compute. reflexivity. Qed.

(* ===================================================================== *)
(** * Unique paths                                                        *)
(* ===================================================================== *)

Lemma move_row_paths (offset : Z) (l : list Item) (row : nat) :
  data <$> move_row offset l row ≡ₚ data <$> l.
Proof.
  unfold move_row. destruct (_ || _); [done|].
  destruct (l !! row) as [item|] eqn:Hrow; [|done].
  unfold insertItem. rewrite fmap_app, fmap_cons. simpl.
  rewrite <- Permutation_middle, <- fmap_app, take_drop.
  rewrite (delete_Permutation l row item Hrow) at 2. done.
Qed.

(** Reordering permutes the paths of the registry. *)
Lemma move_selection_paths (offset : Z) (w : Window) :
  _gather_paths (_move_selection offset w) ≡ₚ _gather_paths w.
Proof.
  unfold _move_selection. case_bool_decide; [done|].
  destruct (selected_rows w) as [|r rows]; [done|].
  unfold _gather_paths. simpl file_list.
  generalize (if bool_decide (offset < 0)%Z then r :: rows else reverse (r :: rows)).
  generalize (file_list w). intros l rs. revert l.
  induction rs as [|row rs IH]; intros l; [done|].
  simpl. rewrite IH. apply move_row_paths.
Qed.

Lemma remove_selected_paths (w : Window) :
  _gather_paths (_remove_selected w) `sublist_of` _gather_paths w.
Proof.
  unfold _remove_selected. case_bool_decide; [done|].
  unfold _gather_paths. simpl. apply fmap_sublist, sublist_filter.
Qed.

Lemma select_rows_paths (sel : nat → bool) (w : Window) :
  _gather_paths (select_rows sel w) = _gather_paths w.
Proof.
  unfold _gather_paths, select_rows. simpl. rewrite fmap_imap.
  generalize (file_list w). intros l. generalize 0 as n.
  induction l as [|i l IH]; intros n; [done|].
  simpl. f_equal. apply (IH (S n)).
Qed.

Lemma data_new_item (paths : list string) : data <$> (new_item <$> paths) = paths.
Proof. induction paths as [|p paths IH]; [done|]. rewrite !fmap_cons, IH. done. Qed.

(** X8. Selecting, adding, removing and reordering keep the paths of the
    registry pairwise different. *)
Lemma other_steps_keep_paths_unique (w : Window) (fs : FS) :
  NoDup (_gather_paths w) →
  (∀ sel, NoDup (_gather_paths (select_rows sel w)))
  ∧ (∀ paths, NoDup (_gather_paths (_add_path_batch fs paths w).1))
  ∧ NoDup (_gather_paths (_remove_selected w))
  ∧ (∀ offset, NoDup (_gather_paths (_move_selection offset w))).
Proof.
  intros Hnd. split_and!.
  - intros sel. by rewrite select_rows_paths.
  - intros paths. unfold _gather_paths at 1.
    destruct (add_path_batch_unfold fs paths w) as (-> & _).
    rewrite add_loop_spec. simpl.
    rewrite fmap_app, data_new_item.
    apply NoDup_app. split_and!; [done | | apply first_occurrences_NoDup].
    intros p Hp Hp'. apply elem_of_first_occurrences in Hp'. naive_solver.
  - apply (sublist_NoDup _ _ Hnd), remove_selected_paths.
  - intros offset. by rewrite move_selection_paths.
Qed.

(* ===================================================================== *)
(** * Renaming                                                            *)
(* ===================================================================== *)

Lemma os_rename_raises_OSError (src dst : string) (fs fs' : FS) (exc : exn) :
  os_rename src dst fs = (fs', inl exc) → is_OSError exc = true ∧ fs' = fs.
Proof.
  unfold os_rename. intros H.
  destruct (fs !! src) as [[[]|]|]; [| destruct (fs !! dst) as [[[]|]|] ..| destruct (fs !! dst) as [[[]|]|] | ];
    by simplify_eq.
Qed.



(** C4. Renaming an entry to the name of another listed file gives two
    entries with the same path: from the empty registry, adding
    [/d/a.pdf] and [/d/b.pdf] and renaming the first to [b.pdf], with the
    overwrite confirmed, reaches a state whose paths are
    [/d/b.pdf; /d/b.pdf]. *)
Theorem rename_reaches_duplicate_paths :
  let fs := regular_files ["/d/a.pdf"; "/d/b.pdf"] in
  let w1 := (_add_path_batch fs ["/d/a.pdf"; "/d/b.pdf"] (window_of [])).1 in
  let r := _rename_item 0 "b.pdf" true true w1 fs in
  _gather_paths w1 = ["/d/a.pdf"; "/d/b.pdf"]
  ∧ r.2 = Renamed
  ∧ _gather_paths r.1.1 = ["/d/b.pdf"; "/d/b.pdf"]
  ∧ reachable (r.1.1, r.1.2)
  ∧ ¬ NoDup (_gather_paths r.1.1).
Proof.
  intros fs w1 r.
  assert (Hpaths : _gather_paths r.1.1 = ["/d/b.pdf"; "/d/b.pdf"]) by reflexivity.
  split_and!; try reflexivity.
  - eapply reachable_step; [|apply (step_rename 0 "b.pdf" true true w1 fs)].
    eapply reachable_step; [|apply (step_add ["/d/a.pdf"; "/d/b.pdf"] (window_of []) fs)].
    apply reachable_init.
  - rewrite Hpaths. intros Hnd. apply NoDup_cons in Hnd as [Hnotin _].
    apply Hnotin. left.
Qed.

(* ===================================================================== *)
(** * Facts about strings and paths                                       *)
(* ===================================================================== *)

Lemma str_app_cons (c : ascii) (s t : string) :
  String c s +:+ t = String c (s +:+ t).
Proof. reflexivity. Qed.

Lemma str_app_nil_r (s : string) : s +:+ "" = s.
Proof. induction s as [|c s IH]; [done|]. by rewrite str_app_cons, IH. Qed.

Lemma str_app_assoc (s t u : string) : (s +:+ t) +:+ u = s +:+ t +:+ u.
Proof. induction s as [|c s IH]; [done|]. by rewrite !str_app_cons, IH. Qed.

Lemma str_app_length (s t : string) :
  String.length (s +:+ t) = String.length s + String.length t.
Proof. induction s as [|c s IH]; [done|]. rewrite str_app_cons. simpl. by rewrite IH. Qed.

Lemma str_app_inj_r (s1 s2 t : string) : s1 +:+ t = s2 +:+ t → s1 = s2.
Proof.
  revert s2. induction s1 as [|c s1 IH]; intros [|d s2] H; [done|..].
  - apply (f_equal String.length) in H.
    rewrite !str_app_length in H. simpl in H. lia.
  - apply (f_equal String.length) in H.
    rewrite !str_app_length in H. simpl in H. lia.
  - rewrite !str_app_cons in H. injection H as -> H. f_equal. by apply IH.
Qed.

Lemma contains_app (c : ascii) (s t : string) :
  PyStr.contains c (s +:+ t) = PyStr.contains c s || PyStr.contains c t.
Proof.
  induction s as [|d s IH]; [done|].
  rewrite str_app_cons. simpl. by rewrite IH, orb_assoc.
Qed.

Lemma pretty_N_go_no_sep (x : N) (s : string) :
  PyStr.contains "/" s = false → PyStr.contains "/" (pretty_N_go x s) = false.
Proof.
  revert s. induction (N.lt_wf_0 x) as [x _ IH]; intros s Hs.
  destruct (decide (x = 0%N)) as [->|Hpos%N.neq_0_lt_0].
  - by rewrite pretty_N_go_0.
  - rewrite pretty_N_go_step by done. apply IH.
    { by apply N.div_lt. }
    simpl. rewrite Hs, orb_false_r. apply bool_decide_eq_false.
    unfold pretty_N_char. by repeat case_match.
Qed.

Lemma of_nat_no_sep (n : nat) : PyStr.contains "/" (PyStr.of_nat n) = false.
Proof.
  unfold PyStr.of_nat, pretty, pretty_nat, pretty, pretty_N.
  case_decide; [done|]. by apply pretty_N_go_no_sep.
Qed.

Lemma split_spec (p : string) :
  (Path.split p).1 +:+ (Path.split p).2 = p
  ∧ PyStr.contains "/" (Path.split p).2 = false.
Proof.
  induction p as [|c p [IH1 IH2]]; [done|]. simpl.
  destruct (Path.split p) as [d n]. simpl in *.
  destruct d as [|c' d]; simpl.
  - change (n = p) in IH1. subst n. case_bool_decide as Hc; simpl.
    + subst c. done.
    + split; [done|]. rewrite IH2, orb_false_r.
      apply bool_decide_eq_false. congruence.
  - split; [|done]. by rewrite str_app_cons, IH1.
Qed.

Lemma dir_name (p : string) : Path.dir p +:+ Path.name p = p.
Proof. apply split_spec. Qed.

Lemma name_no_sep (p : string) : PyStr.contains "/" (Path.name p) = false.
Proof. apply split_spec. Qed.

Lemma rsplit_dot_spec (n : string) :
  (Path.rsplit_dot n).1 +:+ (Path.rsplit_dot n).2 = n.
Proof.
  induction n as [|c n IH]; [done|]. simpl.
  destruct (Path.rsplit_dot n) as [a b]. simpl in *.
  destruct b as [|c' b]; simpl.
  - case_bool_decide; simpl; [done|]. by rewrite str_app_cons, IH.
  - by rewrite str_app_cons, IH.
Qed.

Lemma stem_suffix (p : string) : Path.stem p +:+ Path.suffix p = Path.name p.
Proof.
  unfold Path.stem, Path.suffix.
  destruct (Path.has_suffix (Path.name p)).
  - apply rsplit_dot_spec.
  - apply str_app_nil_r.
Qed.

Lemma stem_suffix_no_sep (p : string) :
  PyStr.contains "/" (Path.stem p) = false
  ∧ PyStr.contains "/" (Path.suffix p) = false.
Proof.
  pose proof (name_no_sep p) as H.
  rewrite <- stem_suffix, contains_app in H. by apply orb_false_iff in H.
Qed.

(** The candidate with counter [k], written out. *)
Lemma numbered_spec (path : string) (k : nat) :
  Path.name path ≠ "" →
  numbered path k
  = Some (Path.dir path +:+ Path.stem path +:+ "_" +:+ PyStr.of_nat k
            +:+ Path.suffix path).
Proof.
  intros Hname. unfold numbered, Path.with_stem, Path.with_name.
  destruct (Path.name path) as [|c n] eqn:Hn; [done|]. simpl.
  destruct (stem_suffix_no_sep path) as [Hstem Hsuf].
  assert (Path.valid_name ((Path.stem path +:+ "_" +:+ PyStr.of_nat k)
                             +:+ Path.suffix path) = true) as ->.
  { unfold Path.valid_name. rewrite !andb_true_iff, !negb_true_iff. split_and!.
    - rewrite str_app_assoc. destruct (Path.stem path); done.
    - rewrite !contains_app, Hstem, Hsuf, of_nat_no_sep. done.
    - apply bool_decide_eq_false. intros Heq.
      apply (f_equal (PyStr.contains "_")) in Heq.
      rewrite !contains_app in Heq. simpl in Heq.
      rewrite orb_true_r in Heq. discriminate. }
  by rewrite !str_app_assoc.
Qed.

Lemma numbered_inj (path : string) (j k : nat) (c : string) :
  Path.name path ≠ "" →
  numbered path j = Some c → numbered path k = Some c → j = k.
Proof.
  intros Hname Hj Hk. rewrite numbered_spec in Hj, Hk by done.
  rewrite <- Hk in Hj. injection Hj as Hj.
  do 3 apply String.app_inj in Hj.
  apply str_app_inj_r in Hj. by apply (inj pretty) in Hj.
Qed.

(* ===================================================================== *)
(** * Conflict resolution                                                 *)
(* ===================================================================== *)

Lemma exists_dom (fs : FS) (p : string) : exists_ fs p = true ↔ p ∈ dom fs.
Proof.
  unfold exists_. rewrite elem_of_dom. destruct (fs !! p) as [n|].
  - split; [by exists n | done].
  - split; [done | by intros [n Hn]].
Qed.

(** Not all of the candidates numbered [1] to [size fs + 1] can exist:
    they are pairwise different. *)
Lemma some_candidate_free (fs : FS) (path : string) :
  Path.name path ≠ "" →
  ∃ k c, 1 ≤ k ≤ S (size fs) ∧ numbered path k = Some c ∧ exists_ fs c = false.
Proof.
  intros Hname.
  set (cand k := Path.dir path +:+ Path.stem path +:+ "_" +:+ PyStr.of_nat k
                   +:+ Path.suffix path).
  assert (Hcand : ∀ k, numbered path k = Some (cand k)).
  { intros k. by apply numbered_spec. }
  destruct (decide (Exists (λ k, exists_ fs (cand k) = false) (seq 1 (S (size fs)))))
    as [Hex | Hall].
  - apply Exists_exists in Hex as (k & Hk & Hfree).
    apply elem_of_seq in Hk. exists k, (cand k). split_and!; [lia | lia | done | done].
  - exfalso. apply not_Exists_Forall in Hall; [|intros k; apply _].
    assert (Hnd : NoDup (cand <$> seq 1 (S (size fs)))).
    { apply NoDup_fmap_2_strong; [|apply NoDup_seq].
      intros j k _ _ Heq. apply (numbered_inj path j k (cand k) Hname); [|done].
      by rewrite Hcand, Heq. }
    assert (Hsub : cand <$> seq 1 (S (size fs)) ⊆+ elements (dom fs)).
    { apply NoDup_submseteq; [done|]. intros c (k & -> & Hk)%list_elem_of_fmap.
      apply elem_of_elements, exists_dom.
      rewrite Forall_forall in Hall. specialize (Hall k Hk). simpl in Hall.
      by destruct (exists_ fs (cand k)). }
    apply submseteq_length in Hsub.
    rewrite length_fmap, length_seq in Hsub.
    change (length (elements (dom fs))) with (size (dom fs)) in Hsub.
    rewrite size_dom in Hsub. lia.
Qed.

(** The loop returns the candidate with the least free counter, when one
    lies within the fuel. *)
Lemma resolve_loop_least (fs : FS) (path : string) (fuel c : nat) :
  Path.name path ≠ "" →
  (∃ k x, c ≤ k < c + fuel ∧ numbered path k = Some x ∧ exists_ fs x = false) →
  ∃ k r, c ≤ k
    ∧ resolve_loop fuel fs path c = Some (inr r)
    ∧ numbered path k = Some r
    ∧ exists_ fs r = false
    ∧ ∀ j, c ≤ j < k → ∃ x, numbered path j = Some x ∧ exists_ fs x = true.
Proof.
  intros Hname. revert c. induction fuel as [|fuel IH]; intros c (k & x & Hk & Hx & Hfree).
  { lia. }
  simpl. rewrite (numbered_spec path c Hname).
  destruct (exists_ fs (Path.dir path +:+ Path.stem path +:+ "_" +:+ PyStr.of_nat c
                          +:+ Path.suffix path)) eqn:Hc; simpl.
  - destruct (decide (k = c)) as [->|Hne].
    { rewrite (numbered_spec path c Hname) in Hx. congruence. }
    destruct (IH (S c)) as (k' & r & Hk' & Hrun & Hr & Hrfree & Hbelow).
    { exists k, x. split_and!; [lia | lia | done | done]. }
    exists k', r. split_and!; [lia | done | done | done |].
    intros j Hj. destruct (decide (j = c)) as [->|Hjc].
    + eexists. split; [by apply numbered_spec | done].
    + apply Hbelow. lia.
  - exists c. eexists. split_and!; [lia | reflexivity | by apply numbered_spec | exact Hc |].
    intros j Hj. lia.
Qed.

(** C6. [resolve] returns the candidate path unchanged when no file
    exists at it. When one exists (and the path has a file name), it
    returns, within [size fs + 1] iterations, the path with [_k] appended
    to the stem and the extension kept, for the least [k ≥ 1] at which no
    file exists; so when the file numbered [_1] exists and the one numbered [_2] does not,
    the result is the path numbered [_2]. *)
Theorem resolve_conflict_path_spec (fs : FS) (path : string) :
  (exists_ fs path = false →
   ∀ fuel, _resolve_conflict_path fuel fs path = Some (inr path))
  ∧ (exists_ fs path = true → Path.name path ≠ "" →
     ∀ fuel, size fs < fuel →
     ∃ k r, 1 ≤ k
       ∧ _resolve_conflict_path fuel fs path = Some (inr r)
       ∧ r = Path.dir path +:+ Path.stem path +:+ "_" +:+ PyStr.of_nat k
               +:+ Path.suffix path
       ∧ exists_ fs r = false
       ∧ (∀ j, 1 ≤ j < k →
            exists_ fs (Path.dir path +:+ Path.stem path +:+ "_" +:+ PyStr.of_nat j
                          +:+ Path.suffix path) = true)
       ∧ (exists_ fs (Path.dir path +:+ Path.stem path +:+ "_1" +:+ Path.suffix path)
            = true →
          exists_ fs (Path.dir path +:+ Path.stem path +:+ "_2" +:+ Path.suffix path)
            = false →
          k = 2)).
Proof.
  split.
  - intros Hfree fuel. unfold _resolve_conflict_path. by rewrite Hfree.
  - intros Hex Hname fuel Hfuel. unfold _resolve_conflict_path. rewrite Hex. simpl.
    destruct (some_candidate_free fs path Hname) as (k0 & x & Hk0 & Hx & Hxfree).
    destruct (resolve_loop_least fs path fuel 1 Hname)
      as (k & r & Hk & Hrun & Hr & Hrfree & Hbelow).
    { exists k0, x. split_and!; [lia | lia | done | done]. }
    assert (Hbelow' : ∀ j, 1 ≤ j < k →
      exists_ fs (Path.dir path +:+ Path.stem path +:+ "_" +:+ PyStr.of_nat j
                    +:+ Path.suffix path) = true).
    { intros j Hj. destruct (Hbelow j Hj) as (y & Hy & Hyex).
      rewrite (numbered_spec path j Hname) in Hy. congruence. }
    rewrite (numbered_spec path k Hname) in Hr. injection Hr as <-.
    exists k. eexists. split_and!; [done | done | done | done | done |].
    intros H1 H2.
    destruct (decide (k = 1)) as [->|Hk1].
    { change (PyStr.of_nat 1) with "1" in Hrfree.
      change ("_" +:+ "1" +:+ Path.suffix path) with ("_1" +:+ Path.suffix path) in Hrfree.
      congruence. }
    destruct (decide (k = 2)) as [->|Hk2]; [done|].
    specialize (Hbelow' 2 ltac:(lia)).
    change (PyStr.of_nat 2) with "2" in Hbelow'.
    change ("_" +:+ "2" +:+ Path.suffix path) with ("_2" +:+ Path.suffix path) in Hbelow'.
    congruence.
Qed.

Lemma resolve_conflict_path_spec_witness :
  let fs := regular_files ["/out/name.jpg"; "/out/name_1.jpg"; "/out/x.pdf"] in
  _resolve_conflict_path 4 fs "/out/y.jpg" = Some (inr "/out/y.jpg")
  ∧ _resolve_conflict_path 4 fs "/out/name.jpg" = Some (inr "/out/name_2.jpg").
Proof.
  intros fs. split.
  - destruct (resolve_conflict_path_spec fs "/out/y.jpg") as [H _].
    apply H. reflexivity.
  - destruct (resolve_conflict_path_spec fs "/out/name.jpg") as [_ H].
    destruct (H eq_refl ltac:(discriminate) 4 ltac:(vm_compute; lia))
      as (k & r & Hk & Hrun & Hr & Hfree & Hbelow & Htwo).
    rewrite Hrun, Hr, (Htwo eq_refl eq_refl). reflexivity.
Defined.

(** The converters' call never runs out of iterations. *)
Lemma resolve_conflict_returns (fs : FS) (path : string) :
  Path.name path ≠ "" →
  ∃ r, resolve_conflict path fs = (fs, inr r) ∧ exists_ fs r = false.
Proof.
  intros Hname. unfold resolve_conflict, _resolve_conflict_path.
  destruct (exists_ fs path) eqn:Hex; cbn [negb]; [|by exists path].
  destruct (some_candidate_free fs path Hname) as (k0 & x & Hk0 & Hx & Hxfree).
  destruct (resolve_loop_least fs path (S (size fs)) 1 Hname)
    as (k & r & _ & -> & _ & Hr & _).
  { exists k0, x. split_and!; [lia | lia | done | done]. }
  by exists r.
Qed.

(* ===================================================================== *)
(** * Export                                                              *)
(* ===================================================================== *)

Lemma exported_total_cons (r : string * (exn + nat)) (rs : list (string * (exn + nat))) :
  exported_total (r :: rs)
  = match r.2 with inr n => n | inl _ => 0 end + exported_total rs.
Proof. reflexivity. Qed.

(** Over a prefix none of whose conversions lacks a dependency, the loop
    accumulates what [convert_each] lists and goes on with the rest. *)
Lemma export_loop_app (L : Libs) (before rest : list string) (output_dir : string)
    (n : nat) (issues : list string) (fs : FS) :
  Forall (λ r, missing_dependency r = false) (convert_each L before output_dir fs).2 →
  export_loop L (before ++ rest) output_dir n issues fs
  = export_loop L rest output_dir
      (n + exported_total (convert_each L before output_dir fs).2)
      (issues ++ issue_lines (convert_each L before output_dir fs).2)
      (convert_each L before output_dir fs).1.
Proof.
  revert n issues fs. induction before as [|path before IH]; intros n issues fs Hok.
  { simpl. by rewrite Nat.add_0_r, app_nil_r. }
  simpl in *.
  destruct (_convert_file_to_jpg L path output_dir fs) as [fs' r].
  specialize (IH) with (fs := fs').
  destruct (convert_each L before output_dir fs') as [fs'' rs]. simpl in *.
  apply Forall_cons in Hok as [Hr Hok].
  destruct r as [exc | k]; unfold missing_dependency in Hr; simpl in Hr.
  - rewrite Hr, IH by done. rewrite exported_total_cons. simpl.
    unfold issue_lines at 2. simpl. by rewrite <- app_assoc.
  - rewrite IH by done. rewrite exported_total_cons. simpl.
    f_equal. lia.
Qed.

(** C1, as the code has it. When no conversion fails for a missing
    dependency, every path is converted, each failure adds exactly its own
    line ["<filename>: <message>"] to the issues, and the exported count
    is the sum of the outputs of the files that did not fail. *)
Theorem export_isolates_other_failures (L : Libs) (paths : list string)
    (output_dir : string) (fs : FS) :
  Forall (λ r, missing_dependency r = false) (convert_each L paths output_dir fs).2 →
  isolates_failures L paths output_dir fs
  ∧ (convert_each L paths output_dir fs).2.*1 = paths.
Proof.
  intros Hok. split.
  - unfold isolates_failures.
    rewrite <- (app_nil_r paths) at 1. by rewrite export_loop_app.
  - clear Hok. revert fs. induction paths as [|path paths IH]; intros fs; [done|].
    simpl. destruct (_convert_file_to_jpg L path output_dir fs) as [fs' r].
    specialize (IH fs').
    destruct (convert_each L paths output_dir fs') as [fs'' rs].
    simpl. f_equal. exact IH.
Qed.

Lemma export_isolates_other_failures_witness :
  let L := sample_libs true saving in
  let paths := ["/in/bad.tif"; "/in/x.pdf"; "/in/notes.txt"; "/in/p.jpeg"] in
  export_loop L paths "/out" 0 [] (regular_files paths)
  = (regular_files (paths ++ ["/out/x_page001.jpg"; "/out/x_page002.jpg"; "/out/p.jpeg"]),
     inr (3, ["bad.tif: cannot identify image file '/in/bad.tif'";
              "notes.txt: Unsupported file encountered: /in/notes.txt"])).
Proof.
  intros L paths.
  destruct (export_isolates_other_failures L paths "/out" (regular_files paths))
    as [H _].
  - vm_compute. repeat constructor.
  - rewrite H. vm_compute. reflexivity.
Defined.

(** C1, as stated, fails: with PyMuPDF missing, the PDF listed first ends
    the run, and the JPG after it, which [convert_each] copies, is never
    reached. *)
Lemma missing_dependency_not_isolated :
  ¬ isolates_failures (sample_libs false saving)
      ["/in/x.pdf"; "/in/p.jpg"] "/out" (regular_files ["/in/x.pdf"; "/in/p.jpg"]).
Proof. unfold isolates_failures. vm_compute. discriminate. Qed.

(** C10. When the conversion of a path raises a missing-dependency error,
    [_export_to_jpg] ends there: its only message is the error box for the
    missing dependency, with neither the count nor the issues collected
    so far, the paths after it play no part, and the file system is the
    one the earlier conversions and the failing one left. *)
Theorem export_stops_at_missing_dependency (L : Libs) (destination : string)
    (w : Window) (fs : FS) (before after : list string) (path : string)
    (fs2 : FS) (exc : exn) :
  _gather_paths w = before ++ path :: after →
  destination ≠ "" →
  Forall (λ r, missing_dependency r = false) (convert_each L before destination fs).2 →
  _convert_file_to_jpg L path destination (convert_each L before destination fs).1
    = (fs2, inl exc) →
  is_ImportError exc = true →
  _export_to_jpg L destination w fs
  = (_show_error ("Missing dependency: " +:+ exn_str exc
                  +:+ ". Install the required package and try again.") w,
     fs2).
Proof.
  intros Hpaths Hdest Hok Hconv Himp. unfold _export_to_jpg.
  destruct (_gather_paths w) as [|p ps]; [by destruct before|].
  rewrite Hpaths. clear p ps Hpaths.
  destruct destination as [|c d]; [done|]. simpl PyStr.is_empty. cbv iota.
  rewrite export_loop_app by done. simpl. by rewrite Hconv, Himp.
Qed.

Lemma export_stops_at_missing_dependency_witness :
  let L := sample_libs false saving in
  let paths := ["/in/p.jpg"; "/in/x.pdf"; "/in/q.jpg"] in
  let w := window_of (row_of false <$> paths) in
  _export_to_jpg L "/out" w (regular_files paths)
  = (_show_error ("Missing dependency: PyMuPDF is required to export PDF pages to JPG"
                  +:+ ". Install the required package and try again.") w,
     regular_files (paths ++ ["/out/p.jpg"])).
Proof.
  intros L paths w.
  apply (export_stops_at_missing_dependency L "/out" w (regular_files paths)
           ["/in/p.jpg"] ["/in/q.jpg"] "/in/x.pdf"
           (regular_files (paths ++ ["/out/p.jpg"]))
           (Exn ImportError "PyMuPDF is required to export PDF pages to JPG")).
  - reflexivity.
  - discriminate.
  - vm_compute. repeat constructor.
  - vm_compute. reflexivity.
  - reflexivity.
Defined.

(* ===================================================================== *)
(** * Merge                                                               *)
(* ===================================================================== *)

(** When every deletion failure is a [FileNotFoundError], the cleanup
    loop runs to its end without raising. *)
Lemma cleanup_passes_over_missing (tf : list string) (fs : FS) :
  Forall (λ e, is_FileNotFoundError e = true) (deletion_failures tf fs) →
  ∃ fs', cleanup tf fs = (fs', inr ()).
Proof.
  revert fs. induction tf as [|temp_file rest IH]; intros fs Hfail; simpl in *.
  { by exists fs. }
  destruct (unlink temp_file fs) as [fs' [e|[]]].
  - apply Forall_cons in Hfail as [He Hrest].
    rewrite He in *. by apply IH.
  - by apply IH.
Qed.

(** C3, as the code has it. When the only failures to delete temporary
    artifacts are [FileNotFoundError]s (the artifact is already removed),
    merge ends as its conversions and its write did: in success, or with
    their error. *)
Theorem missing_temp_files_swallowed (L : Libs) (paths : list string)
    (output_path : string) (fs : FS) :
  has_PyPDF2 L = true →
  Forall (λ e, is_FileNotFoundError e = true)
    (deletion_failures (temp_files (merge_body L paths output_path fs).2)
       (merge_body L paths output_path fs).1) →
  deletion_failures_swallowed L paths output_path fs.
Proof.
  intros Hlib Hfail. unfold deletion_failures_swallowed, _merge_into_pdf.
  rewrite Hlib. simpl.
  destruct (merge_body L paths output_path fs) as [fs1 frame]. simpl in *.
  destruct (cleanup_passes_over_missing _ _ Hfail) as [fs2 ->].
  unfold body_outcome. by destruct (raised frame).
Qed.

Lemma missing_temp_files_swallowed_witness :
  let fs := regular_files ["/in/a.jpg"; "/in/b.pdf"] in
  deletion_failures ["/tmp/tmpq7.pdf"] fs
  = [Exn FileNotFoundError "[Errno 2] No such file or directory: '/tmp/tmpq7.pdf'"]
  ∧ _merge_into_pdf (sample_libs true vanishing) ["/in/a.jpg"; "/in/b.pdf"] "/out/m.pdf" fs
    = (regular_files ["/in/a.jpg"; "/in/b.pdf"; "/out/m.pdf"], inr ()).
Proof.
  intros fs. split; [reflexivity|].
  pose proof (missing_temp_files_swallowed (sample_libs true vanishing)
                ["/in/a.jpg"; "/in/b.pdf"] "/out/m.pdf" fs eq_refl) as H.
  unfold deletion_failures_swallowed in H.
  destruct (_merge_into_pdf (sample_libs true vanishing)
              ["/in/a.jpg"; "/in/b.pdf"] "/out/m.pdf" fs) as [fs' r] eqn:Hrun.
  simpl in H. rewrite H.
  - vm_compute in Hrun. injection Hrun as <- _. reflexivity.
  - vm_compute. repeat constructor.
Defined.

(** C3, as stated, fails: a temporary PDF that cannot be deleted for
    another reason (here it is held locked) makes merge end with the
    [PermissionError] of the deletion, although the conversion and the
    write succeeded. *)
Lemma locked_temp_file_surfaces :
  let fs := regular_files ["/in/a.jpg"] in
  body_outcome (merge_body (sample_libs true locking) ["/in/a.jpg"] "/out/m.pdf" fs).2
  = inr ()
  ∧ (_merge_into_pdf (sample_libs true locking) ["/in/a.jpg"] "/out/m.pdf" fs).2
    = inl (Exn PermissionError "[Errno 13] Permission denied: '/tmp/tmpq7.pdf'")
  ∧ ¬ deletion_failures_swallowed (sample_libs true locking)
        ["/in/a.jpg"] "/out/m.pdf" fs.
Proof.
  intros fs. split_and!; [reflexivity | reflexivity |].
  unfold deletion_failures_swallowed. vm_compute. discriminate.
Qed.

(** C2. A temporary PDF whose save fails is left behind: the converter
    creates the file, the save raises before the converter returns its
    name, so [temp_files] never holds it and the cleanup never deletes
    it. *)
Theorem failed_save_leaves_temp_file :
  let fs := regular_files ["/in/scan.tif"] in
  let r := _merge_into_pdf (sample_libs true disk_full) ["/in/scan.tif"] "/out/m.pdf" fs in
  exists_ fs "/tmp/tmpq7.pdf" = false
  ∧ r.2 = inl (Exn OSError "[Errno 28] No space left on device")
  ∧ exists_ r.1 "/tmp/tmpq7.pdf" = true
  ∧ temp_files (merge_body (sample_libs true disk_full)
                  ["/in/scan.tif"] "/out/m.pdf" fs).2 = [].
Proof. repeat split. Qed.

(** A second way for merge to leave temporary PDFs behind: a deletion
    that fails otherwise than with [FileNotFoundError] ends the cleanup
    loop, and the temporary files after it are not deleted. *)
Lemma cleanup_stops_at_locked_file :
  let fs : FS := {[ "/tmp/t1.pdf" := File true; "/tmp/t2.pdf" := File false ]} in
  cleanup ["/tmp/t1.pdf"; "/tmp/t2.pdf"] fs
  = (fs, inl (Exn PermissionError "[Errno 13] Permission denied: '/tmp/t1.pdf'")).
Proof. reflexivity. Qed.

(* ===================================================================== *)
(** * More facts about paths                                              *)
(* ===================================================================== *)

Lemma split_no_sep (n : string) :
  PyStr.contains "/" n = false → Path.split n = ("", n).
Proof.
  induction n as [|c n IH]; [done|]. simpl. intros [Hc Hn]%orb_false_iff.
  rewrite (IH Hn). simpl. apply bool_decide_eq_false in Hc.
  rewrite bool_decide_eq_false_2; [done | congruence].
Qed.


(** Splitting a directory part followed by a name gives them back. *)
Lemma split_dir_name (d n : string) :
  Path.ends_with_sep d = true → PyStr.contains "/" n = false →
  Path.split (d +:+ n) = (d, n).
Proof.
  intros Hd Hn. induction d as [|c d IH]; [done|].
  rewrite str_app_cons. simpl. destruct d as [|c' d].
  - simpl in Hd. apply bool_decide_eq_true in Hd as ->.
    change ("" +:+ n) with n. by rewrite split_no_sep.
  - rewrite IH by done. done.
Qed.

Lemma dir_shape (p : string) :
  Path.dir p = "" ∨ Path.ends_with_sep (Path.dir p) = true.
Proof.
  unfold Path.dir. induction p as [|c p IH]; [by left|]. simpl.
  destruct (Path.split p) as [d n]. simpl in *.
  destruct d as [|c' d]; simpl.
  - case_bool_decide; [by right | by left].
  - right. by destruct IH.
Qed.

(** The name of a path made of the directory of [p] and a name. *)
Lemma name_sibling (p n : string) :
  PyStr.contains "/" n = false →
  Path.name (Path.dir p +:+ n) = n ∧ Path.dir (Path.dir p +:+ n) = Path.dir p.
Proof.
  intros Hn. unfold Path.name at 1, Path.dir at 2.
  destruct (dir_shape p) as [-> | Hd].
  - change ("" +:+ n) with n. by rewrite split_no_sep.
  - by rewrite split_dir_name.
Qed.

Lemma ends_with_sep_snoc (d : string) : Path.ends_with_sep (d +:+ "/") = true.
Proof.
  induction d as [|c d IH]; [done|]. rewrite str_app_cons. simpl.
  destruct (d +:+ "/") eqn:Hd; [by destruct d | done].
Qed.

Lemma name_joinpath (d n : string) :
  PyStr.contains "/" n = false → Path.name (Path.joinpath d n) = n.
Proof.
  intros Hn. unfold Path.joinpath, Path.name.
  destruct (PyStr.is_empty d); [by rewrite split_no_sep|].
  destruct (Path.ends_with_sep d) eqn:Hd.
  - by rewrite split_dir_name.
  - rewrite <- str_app_assoc, split_dir_name; [done | apply ends_with_sep_snoc | done].
Qed.

Lemma rsplit_no_dot (n : string) :
  PyStr.contains "." n = false → Path.rsplit_dot n = (n, "").
Proof.
  induction n as [|c n IH]; [done|]. simpl. intros [Hc Hn]%orb_false_iff.
  rewrite (IH Hn). simpl. apply bool_decide_eq_false in Hc.
  rewrite bool_decide_eq_false_2; [done | congruence].
Qed.

(** Splitting at the last dot a name that ends in a dot and a dot-free
    extension. *)
Lemma rsplit_dot_ext (a t : string) :
  PyStr.contains "." t = false →
  Path.rsplit_dot (a +:+ String "." t) = (a, String "." t).
Proof.
  intros Ht. induction a as [|c a IH].
  - change ("" +:+ String "." t) with (String "." t). simpl.
    by rewrite rsplit_no_dot.
  - rewrite str_app_cons. simpl. by rewrite IH.
Qed.

(** The suffix and the stem of a path whose name is a non-empty text,
    a dot, and a non-empty dot-free extension. *)
Lemma suffix_stem_ext (p a t : string) :
  Path.name p = a +:+ String "." t →
  a ≠ "" → t ≠ "" → PyStr.contains "." t = false →
  Path.suffix p = String "." t ∧ Path.stem p = a.
Proof.
  intros Hname Ha Ht Hdot. unfold Path.suffix, Path.stem, Path.has_suffix.
  rewrite Hname, rsplit_dot_ext by done.
  destruct a; [done|]. destruct t; done.
Qed.


Lemma suffix_nonempty_name (p : string) : Path.suffix p ≠ "" → Path.name p ≠ "".
Proof.
  unfold Path.suffix, Path.has_suffix. intros H Hn. rewrite Hn in H. by apply H.
Qed.

(* ===================================================================== *)
(** * Renaming, all the ways out                                          *)
(* ===================================================================== *)


(** What [_rename_item] does, by its way out: either it leaves through
    [Renamed], having renamed the file to the completed name next to the
    original and rewritten the one row; or it leaves otherwise, and the
    rows are as they were. *)
Lemma rename_item_inv (row : nat) (new_name : string) (ok overwrite : bool)
    (w : Window) (fs : FS) :
  (∃ item target,
      file_list w !! row = Some item
      ∧ ok = true
      ∧ PyStr.strip new_name ≠ ""
      ∧ (suffix_lower (PyStr.strip new_name) = ""
         ∨ suffix_lower (PyStr.strip new_name) ∈ SUPPORTED_EXTENSIONS)
      ∧ Path.with_name (data item) (completed_name (data item) (PyStr.strip new_name))
        = Some target
      ∧ os_rename (data item) target fs
        = ((_rename_item row new_name ok overwrite w fs).1.2, inr ())
      ∧ (_rename_item row new_name ok overwrite w fs).2 = Renamed
      ∧ file_list (_rename_item row new_name ok overwrite w fs).1.1
        = <[row := {| text := Path.name target; data := target;
                      selected := selected item |}]> (file_list w))
  ∨ ((_rename_item row new_name ok overwrite w fs).2 ≠ Renamed
     ∧ file_list (_rename_item row new_name ok overwrite w fs).1.1 = file_list w
     ∧ (_rename_item row new_name ok overwrite w fs).1.2 = fs).
Proof.
  unfold _rename_item.
  destruct (file_list w !! row) as [item|] eqn:Hrow; [|by right].
  destruct ok; [|by right]. simpl.
  destruct (PyStr.strip new_name) as [|c s] eqn:Hstrip; [by right|]. simpl.
  destruct (negb (PyStr.is_empty (suffix_lower (String c s)))
            && negb (bool_decide (suffix_lower (String c s) ∈ SUPPORTED_EXTENSIONS)))
    eqn:Hguard; [by right|].
  assert (Hext : suffix_lower (String c s) = ""
                 ∨ suffix_lower (String c s) ∈ SUPPORTED_EXTENSIONS).
  { apply andb_false_iff in Hguard as [H|H]; apply negb_false_iff in H.
    - left. by destruct (suffix_lower (String c s)).
    - right. by apply bool_decide_eq_true in H. }
  destruct (Path.with_name (data item) (completed_name (data item) (String c s)))
    as [target|] eqn:Htarget; [|by right].
  destruct (exists_ fs target && negb overwrite);
    [by right; destruct (exists_ fs target)|].
  destruct (os_rename (data item) target fs) as [fs' [exc|[]]] eqn:Hos.
  - apply os_rename_raises_OSError in Hos as [-> ->]. by right; destruct (exists_ fs target).
  - left. exists item, target. by destruct (exists_ fs target).
Qed.

(** X2. A rename that does not go through changes nothing but the messages:
    whether it is cancelled, left blank, refused for its extension,
    declined at the overwrite question, or failed by the system, the rows
    of the registry and the file system are as they were. *)
Theorem rename_not_done_changes_nothing (row : nat) (new_name : string)
    (ok overwrite : bool) (w w' : Window) (fs fs' : FS) (exit : rename_exit) :
  _rename_item row new_name ok overwrite w fs = (w', fs', exit) →
  exit ≠ Renamed →
  file_list w' = file_list w ∧ fs' = fs.
Proof.
  intros Hrun Hexit.
  destruct (rename_item_inv row new_name ok overwrite w fs)
    as [(item & target & _ & _ & _ & _ & _ & _ & Hdone & _) | (_ & Hl & Hfs)];
    rewrite Hrun in *; simpl in *; [done|]. by split.
Qed.

Lemma rename_not_done_changes_nothing_witness :
  let w := window_of [row_of true "/d/a.pdf"; row_of false "/d/b.pdf"] in
  let fs := regular_files ["/d/a.pdf"; "/d/b.pdf"] in
  file_list (_rename_item 0 "b.pdf" true false w fs).1.1 = file_list w
  ∧ (_rename_item 0 "b.pdf" true false w fs).1.2 = fs.
Proof.
  intros w fs.
  destruct (_rename_item 0 "b.pdf" true false w fs) as [[w' fs'] exit] eqn:Hrun.
  apply (rename_not_done_changes_nothing 0 "b.pdf" true false w w' fs fs' exit Hrun).
  vm_compute in Hrun. injection Hrun as _ _ <-. discriminate.
Defined.



(* ===================================================================== *)
(** * What every reachable registry satisfies                             *)
(* ===================================================================== *)

Section RowInvariant.

Context (P : Item → Prop).
Hypothesis P_selection : ∀ b i, P i → P (setSelected b i).





End RowInvariant.






(* ===================================================================== *)
(** * Reordering, in general                                              *)
(* ===================================================================== *)

Lemma move_row_entries (offset : Z) (l : list Item) (row : nat) :
  entry <$> move_row offset l row ≡ₚ entry <$> l.
Proof.
  unfold move_row. destruct (_ || _); [done|].
  destruct (l !! row) as [item|] eqn:Hrow; [|done].
  unfold insertItem. rewrite fmap_app, fmap_cons.
  rewrite <- Permutation_middle, <- fmap_app, take_drop.
  rewrite (delete_Permutation l row item Hrow) at 2. done.
Qed.

(** X4. Reordering loses no entry and invents none, whatever the selection
    and the offset: the entries after it are a permutation of the entries
    before it, and there are as many rows. *)
Theorem move_selection_keeps_entries (offset : Z) (w : Window) :
  entry <$> file_list (_move_selection offset w) ≡ₚ entry <$> file_list w
  ∧ length (file_list (_move_selection offset w)) = length (file_list w).
Proof.
  assert (Hperm : entry <$> file_list (_move_selection offset w)
                  ≡ₚ entry <$> file_list w).
  { unfold _move_selection. case_bool_decide; [done|].
    destruct (selected_rows w) as [|r rows]; [done|]. simpl file_list.
    generalize (if bool_decide (offset < 0)%Z then r :: rows else reverse (r :: rows)).
    generalize (file_list w). intros l rs. revert l.
    induction rs as [|row rs IH]; intros l; [done|].
    simpl. rewrite IH. apply move_row_entries. }
  split; [done|].
  apply Permutation_length in Hperm. by rewrite !length_fmap in Hperm.
Qed.

(** X7. Moving down a selected block that reaches the last row turns it
    round: the last row comes to stand first in the block and the rows
    above it move down by one. *)
Theorem move_down_block_at_end_rotates (w : Window) (pre mid : list Item) (x : Item) :
  file_list w = pre ++ mid ++ [x] →
  Forall (λ i, selected i = false) pre →
  Forall (λ i, selected i = true) mid →
  selected x = true →
  file_list (_move_selection 1 w) = pre ++ x :: mid.
Proof.
  intros Hl Hpre Hsel Hx.
  assert (Hrows : selected_rows w = seq (length pre) (S (length mid))).
  { unfold selected_rows. rewrite Hl, !selected_rows_from_app, seq_S.
    rewrite (selected_rows_from_none _ pre), (selected_rows_from_all _ mid) by done.
    simpl. by rewrite Hx. }
  unfold _move_selection. rewrite Hrows.
  rewrite (bool_decide_eq_false_2 (1 = 0)%Z), (bool_decide_eq_false_2 (1 < 0)%Z) by lia.
  destruct (seq (length pre) (S (length mid))) as [|r rows] eqn:Hseq; [done|].
  rewrite <- Hseq, seq_S, reverse_snoc. simpl file_list. simpl foldl.
  rewrite move_row_past_end.
  2:{ rewrite Hl, !length_app. simpl. lia. }
  rewrite Hl, move_block_down, app_nil_r. by rewrite setSelected_selected.
Qed.

Lemma move_down_block_at_end_rotates_witness :
  file_list (_move_selection 1
     (window_of [row_of false "/d/a.pdf"; row_of true "/d/b.pdf";
                 row_of true "/d/c.pdf"; row_of true "/d/d.pdf"]))
  = [row_of false "/d/a.pdf"; row_of true "/d/d.pdf";
     row_of true "/d/b.pdf"; row_of true "/d/c.pdf"].
Proof.
  apply (move_down_block_at_end_rotates _ [row_of false "/d/a.pdf"]
           [row_of true "/d/b.pdf"; row_of true "/d/c.pdf"] (row_of true "/d/d.pdf")).
  - reflexivity.
  - repeat constructor.
  - repeat constructor.
  - reflexivity.
Defined.

(** Moving up the row just after [x] exchanges the two. *)
Lemma move_row_up_swap (pre post : list Item) (m x : Item) :
  move_row (-1) (pre ++ x :: m :: post) (S (length pre))
  = pre ++ setSelected true m :: x :: post.
Proof.
  unfold move_row.
  rewrite bool_decide_eq_false_2 by lia.
  rewrite bool_decide_eq_false_2 by (rewrite length_app; simpl length; lia).
  cbn [orb].
  replace (Z.to_nat (Z.of_nat (S (length pre)) + -1)) with (length pre) by lia.
  assert (Hidx : S (length pre) = length (pre ++ [x])).
  { rewrite length_app. simpl. lia. }
  rewrite (cons_middle x pre (m :: post)), app_assoc, Hidx.
  rewrite list_lookup_middle by done. rewrite delete_middle.
  unfold insertItem.
  rewrite <- app_assoc. by rewrite take_app_length, drop_app_length.
Qed.

Lemma move_block_up (mid pre post : list Item) (x : Item) :
  foldl (move_row (-1)) (pre ++ x :: mid ++ post) (seq (S (length pre)) (length mid))
  = pre ++ (setSelected true <$> mid) ++ x :: post.
Proof.
  revert pre. induction mid as [|m mid IH]; intros pre; [done|].
  simpl. rewrite move_row_up_swap.
  rewrite (cons_middle (setSelected true m) pre), app_assoc.
  replace (S (S (length pre))) with (S (length (pre ++ [setSelected true m]))).
  2:{ rewrite length_app. simpl. lia. }
  rewrite IH. by rewrite <- app_assoc.
Qed.

(** X6. Moving up a contiguous selection that starts below the first row
    shifts the block by one slot: the row [x] above it comes to stand
    below it, and the selected rows keep their order. *)
Theorem move_up_block_inside (w : Window) (pre mid post : list Item) (x : Item) :
  file_list w = pre ++ x :: mid ++ post →
  mid ≠ [] →
  Forall (λ i, selected i = false) pre →
  selected x = false →
  Forall (λ i, selected i = true) mid →
  Forall (λ i, selected i = false) post →
  file_list (_move_selection (-1) w) = pre ++ mid ++ x :: post.
Proof.
  intros Hl Hmid Hpre Hx Hsel Hpost.
  assert (Hrows : selected_rows w = seq (S (length pre)) (length mid)).
  { unfold selected_rows. rewrite Hl, !selected_rows_from_app. simpl.
    rewrite Hx, selected_rows_from_app.
    rewrite (selected_rows_from_none _ pre), (selected_rows_from_none _ post),
      (selected_rows_from_all _ mid) by done.
    by rewrite app_nil_r. }
  unfold _move_selection. rewrite Hrows.
  rewrite (bool_decide_eq_false_2 (-1 = 0)%Z), (bool_decide_eq_true_2 (-1 < 0)%Z) by lia.
  destruct (seq (S (length pre)) (length mid)) as [|r rows] eqn:Hseq.
  { apply (f_equal length) in Hseq. rewrite length_seq in Hseq. by destruct mid. }
  rewrite <- Hseq. simpl file_list. rewrite Hl, move_block_up.
  by rewrite setSelected_selected.
Qed.

Lemma move_up_block_inside_witness :
  file_list (_move_selection (-1)
     (window_of [row_of false "/d/a.pdf"; row_of false "/d/b.pdf";
                 row_of true "/d/c.pdf"; row_of true "/d/d.pdf"; row_of false "/d/e.pdf"]))
  = [row_of false "/d/a.pdf"; row_of true "/d/c.pdf"; row_of true "/d/d.pdf";
     row_of false "/d/b.pdf"; row_of false "/d/e.pdf"].
Proof.
  apply (move_up_block_inside _ [row_of false "/d/a.pdf"]
           [row_of true "/d/c.pdf"; row_of true "/d/d.pdf"]
           [row_of false "/d/e.pdf"] (row_of false "/d/b.pdf")).
  - reflexivity.
  - discriminate.
  - repeat constructor.
  - reflexivity.
  - repeat constructor.
  - repeat constructor.
Defined.

Lemma move_down_block_inside_witness :
  file_list (_move_selection 1
     (window_of [row_of false "/d/a.pdf"; row_of true "/d/b.pdf";
                 row_of true "/d/c.pdf"; row_of false "/d/d.pdf"; row_of false "/d/e.pdf"]))
  = [row_of false "/d/a.pdf"; row_of false "/d/d.pdf"; row_of true "/d/b.pdf";
     row_of true "/d/c.pdf"; row_of false "/d/e.pdf"].
Proof.
  apply (move_down_block_inside _ [row_of false "/d/a.pdf"]
           [row_of true "/d/b.pdf"; row_of true "/d/c.pdf"]
           [row_of false "/d/e.pdf"] (row_of false "/d/d.pdf")).
  - reflexivity.
  - discriminate.
  - repeat constructor.
  - repeat constructor.
  - reflexivity.
  - repeat constructor.
Defined.

(* ===================================================================== *)
(** * Adding again, the drag filter, removing                             *)
(* ===================================================================== *)

Lemma first_occurrences_nil (seen l : list string) :
  (∀ x, x ∈ l → x ∈ seen) → first_occurrences seen l = [].
Proof.
  revert seen. induction l as [|x l IH]; intros seen Hin; simpl; [done|].
  rewrite bool_decide_eq_true_2 by (apply Hin; left).
  apply IH. intros y Hy. apply Hin. by right.
Qed.

(** X9. Adding a batch a second time adds nothing: the count is zero and the
    rows are those the first addition left. *)
Theorem add_path_batch_idempotent (fs : FS) (paths : list string) (w : Window) :
  (_add_path_batch fs paths (_add_path_batch fs paths w).1).2 = 0
  ∧ file_list (_add_path_batch fs paths (_add_path_batch fs paths w).1).1
    = file_list (_add_path_batch fs paths w).1.
Proof.
  destruct (add_path_batch_unfold fs paths (_add_path_batch fs paths w).1)
    as (-> & -> & _).
  destruct (add_path_batch_unfold fs paths w) as (-> & _).
  rewrite !add_loop_spec. simpl.
  rewrite first_occurrences_nil.
  { by rewrite app_nil_r. }
  intros p Hp. rewrite fmap_app, data_new_item, elem_of_app.
  destruct (decide (p ∈ data <$> file_list w)) as [Hin|Hin]; [by left|].
  right. by apply elem_of_first_occurrences.
Qed.

Lemma contains_supported_files_spec (fs : FS) (urls : list string) :
  _contains_supported_files fs urls = true ↔ ∃ p, p ∈ urls ∧ eligible fs p = true.
Proof.
  unfold eligible. induction urls as [|p urls IH]; simpl.
  { split; [done|]. by intros (p & Hp%elem_of_nil & _). }
  destruct (is_file fs p) eqn:Hfile; simpl.
  - case_bool_decide as Hsup.
    + split; [|done]. intros _. exists p. rewrite Hfile. split; [left|].
      by apply bool_decide_eq_true_2.
    + rewrite IH. split.
      * intros (q & Hq & He). exists q. split; [by right | done].
      * intros (q & [-> | Hq]%elem_of_cons & He).
        -- rewrite Hfile in He. by apply bool_decide_eq_true in He.
        -- by exists q.
  - rewrite IH. split.
    + intros (q & Hq & He). exists q. split; [by right | done].
    + intros (q & [-> | Hq]%elem_of_cons & He).
      * by rewrite Hfile in He.
      * by exists q.
Qed.

(** X10. The drag filter and [add] agree: URLs the filter refuses add nothing
    to any registry, and URLs it accepts add at least one entry to an
    empty one. *)
Theorem drag_filter_agrees_with_add (fs : FS) (urls : list string) :
  (_contains_supported_files fs urls = false →
   ∀ w, (_add_path_batch fs urls w).2 = 0
        ∧ file_list (_add_path_batch fs urls w).1 = file_list w)
  ∧ (_contains_supported_files fs urls = true →
     0 < (_add_path_batch fs urls (window_of [])).2).
Proof.
  split.
  - intros Hno w.
    destruct (add_path_batch_unfold fs urls w) as (-> & -> & _).
    rewrite add_loop_spec. simpl.
    destruct (filter (λ p, eligible fs p = true) urls) as [|q l] eqn:Hf.
    { simpl. by rewrite app_nil_r. }
    assert (Hq : q ∈ filter (λ p, eligible fs p = true) urls) by (rewrite Hf; left).
    apply list_elem_of_filter in Hq as [He Hq].
    assert (_contains_supported_files fs urls = true) as Hyes.
    { apply contains_supported_files_spec. by exists q. }
    congruence.
  - intros (p & Hp & He)%contains_supported_files_spec.
    destruct (add_path_batch_unfold fs urls (window_of [])) as (_ & -> & _).
    rewrite add_loop_spec. simpl.
    assert (Hin : p ∈ first_occurrences [] (filter (λ p, eligible fs p = true) urls)).
    { apply elem_of_first_occurrences. split; [|by apply not_elem_of_nil].
      by apply list_elem_of_filter. }
    destruct (first_occurrences [] _); [by apply elem_of_nil in Hin | simpl; lia].
Qed.

Lemma drag_filter_agrees_with_add_witness :
  let fs := regular_files ["/d/notes.txt"; "/d/a.JPG"] in
  (∀ w, (_add_path_batch fs ["/d/notes.txt"; "/d/gone.pdf"] w).2 = 0
        ∧ file_list (_add_path_batch fs ["/d/notes.txt"; "/d/gone.pdf"] w).1
          = file_list w)
  ∧ 0 < (_add_path_batch fs ["/d/notes.txt"; "/d/a.JPG"] (window_of [])).2.
Proof.
  intros fs. split.
  - destruct (drag_filter_agrees_with_add fs ["/d/notes.txt"; "/d/gone.pdf"]) as [H _].
    apply H. reflexivity.
  - destruct (drag_filter_agrees_with_add fs ["/d/notes.txt"; "/d/a.JPG"]) as [_ H].
    apply H. reflexivity.
Defined.




(* ===================================================================== *)
(** * The merge dialog                                                    *)
(* ===================================================================== *)

Lemma suffix_stem_cases (p : string) :
  (Path.suffix p = "" ∧ Path.stem p = Path.name p)
  ∨ (Path.suffix p ≠ "" ∧ Path.stem p ≠ "" ∧ Path.name p ≠ "").
Proof.
  unfold Path.suffix, Path.stem, Path.has_suffix.
  destruct (Path.name p) as [|c n] eqn:Hname; [by left|].
  destruct (Path.rsplit_dot (String c n)) as [a b]. simpl.
  destruct a as [|c' a]; simpl; [by left|].
  destruct b as [|c1 [|c2 b]]; simpl; [by left | by left | by right].
Qed.

Lemma pdf_output_path_some (output_path : string) :
  ∃ q, pdf_output_path output_path = Some q.
Proof.
  unfold pdf_output_path. case_bool_decide; [|by eexists].
  destruct (suffix_stem_cases output_path) as [[-> _] | (Hsuf & _ & Hname)].
  - by eexists.
  - destruct (Path.suffix output_path); [done|]. simpl. unfold with_suffix.
    destruct (Path.name output_path); [done|]. by eexists.
Qed.

(** X13. The output path of a merge keeps its directory and its stem and gets
    the extension [.pdf]: a path that has it already, in any letter case,
    is left as it is; otherwise the extension is replaced, or added when
    there is none. No choice of path makes this step raise. *)
Theorem pdf_output_path_spec (output_path : string) :
  ∃ q, pdf_output_path output_path = Some q
    ∧ Path.dir q = Path.dir output_path
    ∧ (suffix_lower output_path = ".pdf" → q = output_path)
    ∧ (Path.name output_path ≠ "" →
       suffix_lower q = ".pdf" ∧ Path.stem q = Path.stem output_path).
Proof.
  unfold pdf_output_path. case_bool_decide as Hpdf.
  2:{ assert (Heq : suffix_lower output_path = ".pdf").
      { by destruct (decide (suffix_lower output_path = ".pdf")). }
      exists output_path. by split_and!. }
  destruct (stem_suffix_no_sep output_path) as [Hstem_sep _].
  destruct (suffix_stem_cases output_path) as [[Hsuf Hstem] | (Hsuf & Hstem & Hname)].
  - rewrite Hsuf. simpl. eexists. split; [done|]. unfold sibling.
    assert (Hsep : PyStr.contains "/" (Path.name output_path +:+ ".pdf") = false).
    { by rewrite contains_app, name_no_sep. }
    destruct (name_sibling output_path _ Hsep) as [Hn Hd].
    split_and!; [done | done |]. intros Hname.
    destruct (suffix_stem_ext _ (Path.name output_path) "pdf" Hn) as [Hs Hst]; try done.
    unfold suffix_lower. by rewrite Hs, Hst, Hstem.
  - destruct (Path.suffix output_path) eqn:Hs; [done|]. simpl.
    unfold with_suffix.
    destruct (Path.name output_path) eqn:Hn; [done|]. simpl.
    eexists. split; [done|].
    assert (Hsep : PyStr.contains "/" (Path.stem output_path +:+ ".pdf") = false).
    { by rewrite contains_app, Hstem_sep. }
    destruct (name_sibling output_path _ Hsep) as [Hn' Hd].
    split_and!; [done | done |]. intros _.
    destruct (suffix_stem_ext _ (Path.stem output_path) "pdf" Hn') as [Hs' Hst];
      try done.
    unfold suffix_lower. by rewrite Hs', Hst.
Qed.

Lemma pdf_output_path_spec_witness :
  pdf_output_path "/home/u/merged.PDF" = Some "/home/u/merged.PDF"
  ∧ ∃ q, pdf_output_path "/home/u/scan.v2.tif" = Some q
         ∧ suffix_lower q = ".pdf" ∧ Path.stem q = "scan.v2".
Proof.
  split.
  - destruct (pdf_output_path_spec "/home/u/merged.PDF") as (q & -> & _ & Hsame & _).
    by rewrite (Hsame eq_refl).
  - destruct (pdf_output_path_spec "/home/u/scan.v2.tif") as (q & Hq & _ & _ & Hext).
    exists q. split; [done|]. apply Hext. discriminate.
Defined.

(** X14. Neither pipeline touches the registry, and nothing raised during a
    merge leaves [_merge_files]: whatever the collaborators do, export and
    merge return with the rows as they were, and merge with every
    exception turned into a message. *)
Theorem pipelines_keep_registry (L : Libs) (chosen : string) (w : Window) (fs : FS) :
  file_list (_export_to_jpg L chosen w fs).1 = file_list w
  ∧ file_list (_merge_files L chosen w fs).1.1 = file_list w
  ∧ (_merge_files L chosen w fs).2 = None.
Proof.
  split_and!.
  - unfold _export_to_jpg. destruct (_gather_paths w); [done|].
    destruct (PyStr.is_empty chosen); [done|].
    destruct (export_loop _ _ _ _ _ _) as [fs' [exc | [n issues]]]; [done|].
    simpl. by destruct (bool_decide (n ≠ 0)), issues.
  - unfold _merge_files. destruct (_gather_paths w); [done|].
    destruct (PyStr.is_empty chosen); [done|].
    destruct (pdf_output_path chosen); [|done].
    destruct (_merge_into_pdf _ _ _ _) as [fs' [exc | []]]; [|done].
    by destruct (is_ImportError exc).
  - unfold _merge_files. destruct (_gather_paths w); [done|].
    destruct (PyStr.is_empty chosen); [done|].
    destruct (pdf_output_path_some chosen) as (q & ->).
    destruct (_merge_into_pdf _ _ _ _) as [fs' [exc | []]]; [|done].
    by destruct (is_ImportError exc).
Qed.

(* ===================================================================== *)
(** * Merge: cleanup, order of the documents, unsupported files           *)
(* ===================================================================== *)

Lemma cleanup_removes_temp (tf : list string) (fs fs' : FS) :
  cleanup tf fs = (fs', inr ()) →
  ∀ p, fs' !! p = if bool_decide (p ∈ tf) then None else fs !! p.
Proof.
  revert fs. induction tf as [|t tf IH]; intros fs Hrun p; simpl in Hrun.
  { injection Hrun as <-. done. }
  unfold unlink in Hrun.
  destruct (fs !! t) as [[[]|]|] eqn:Ht; simpl in Hrun; try done.
  - rewrite (IH _ Hrun p). case_bool_decide as Hin.
    + rewrite bool_decide_eq_true_2; [done | by right].
    + destruct (decide (p = t)) as [->|Hne].
      * rewrite bool_decide_eq_true_2 by left. apply lookup_delete_eq.
      * rewrite bool_decide_eq_false_2.
        -- by rewrite lookup_delete_ne.
        -- rewrite elem_of_cons. naive_solver.
  - rewrite (IH _ Hrun p). case_bool_decide as Hin.
    + rewrite bool_decide_eq_true_2; [done | by right].
    + destruct (decide (p = t)) as [->|Hne].
      * by rewrite bool_decide_eq_true_2 by left.
      * rewrite bool_decide_eq_false_2; [done|].
        rewrite elem_of_cons. naive_solver.
Qed.

(** X15. A cleanup that ends without raising has removed exactly the listed
    temporary files: none of them is left, whether it was there or had
    vanished already, and every other path of the file system is as it
    was. *)
Theorem cleanup_removes_listed_files (tf : list string) (fs fs' : FS) :
  cleanup tf fs = (fs', inr ()) →
  (∀ t, t ∈ tf → exists_ fs' t = false)
  ∧ (∀ p, p ∉ tf → fs' !! p = fs !! p).
Proof.
  intros Hrun. split.
  - intros t Ht. unfold exists_. rewrite (cleanup_removes_temp _ _ _ Hrun t).
    by rewrite bool_decide_eq_true_2.
  - intros p Hp. rewrite (cleanup_removes_temp _ _ _ Hrun p).
    by rewrite bool_decide_eq_false_2.
Qed.

Lemma cleanup_removes_listed_files_witness :
  let fs : FS := {[ "/tmp/t1.pdf" := File false; "/in/a.jpg" := File false ]} in
  (∀ t, t ∈ ["/tmp/t1.pdf"; "/tmp/gone.pdf"]
        → exists_ (cleanup ["/tmp/t1.pdf"; "/tmp/gone.pdf"] fs).1 t = false)
  ∧ (∀ p, p ∉ ["/tmp/t1.pdf"; "/tmp/gone.pdf"]
          → (cleanup ["/tmp/t1.pdf"; "/tmp/gone.pdf"] fs).1 !! p = fs !! p).
Proof.
  intros fs.
  apply (cleanup_removes_listed_files ["/tmp/t1.pdf"; "/tmp/gone.pdf"] fs).
  reflexivity.
Defined.




Lemma unsupported_is_no_kind (s : string) :
  s ∉ SUPPORTED_EXTENSIONS →
  s ≠ ".pdf" ∧ (s ∉ TIFF_EXTENSIONS) ∧ (s ∉ JPG_EXTENSIONS).
Proof.
  unfold SUPPORTED_EXTENSIONS, TIFF_EXTENSIONS, JPG_EXTENSIONS. set_solver.
Qed.

Lemma merge_loop_unsupported (L : Libs) (paths tf m : list string) (fs : FS) :
  (∃ p, p ∈ paths ∧ suffix_lower p ∉ SUPPORTED_EXTENSIONS) →
  raised (merge_loop L paths tf m fs).2 ≠ None.
Proof.
  revert tf m fs. induction paths as [|path paths IH]; intros tf m fs (p & Hp & Hun).
  { by apply elem_of_nil in Hp. }
  apply elem_of_cons in Hp as [<- | Hp].
  - destruct (unsupported_is_no_kind _ Hun) as (H1 & H2 & H3). simpl.
    by rewrite !bool_decide_eq_false_2.
  - assert (Hrest : ∃ p, p ∈ paths ∧ suffix_lower p ∉ SUPPORTED_EXTENSIONS) by eauto.
    simpl. unfold append_to.
    case_bool_decide.
    { destruct (PdfMerger_append L path fs); [done | by apply IH]. }
    case_bool_decide.
    { destruct (_convert_tiff_to_pdf L path fs) as [fs1 [e|t]]; [done|].
      destruct (PdfMerger_append L t fs1); [done | by apply IH]. }
    case_bool_decide; [|done].
    destruct (_convert_image_to_pdf L path fs) as [fs1 [e|t]]; [done|].
    destruct (PdfMerger_append L t fs1); [done | by apply IH].
Qed.

(** X17. A list that holds a file with an unsupported extension is never
    merged: the merge ends with an error, wherever in the list the file
    stands, and the output is never written. *)
Theorem merge_refuses_unsupported (L : Libs) (paths : list string)
    (output_path : string) (fs : FS) :
  (∃ p, p ∈ paths ∧ suffix_lower p ∉ SUPPORTED_EXTENSIONS) →
  merge_body L paths output_path fs = merge_loop L paths [] [] fs
  ∧ ∃ fs' e, _merge_into_pdf L paths output_path fs = (fs', inl e).
Proof.
  intros Hun. pose proof (merge_loop_unsupported L paths [] [] fs Hun) as Hraised.
  assert (Hbody : merge_body L paths output_path fs = merge_loop L paths [] [] fs).
  { unfold merge_body.
    by destruct (merge_loop L paths [] [] fs) as [fs1 [tf m [e|]]]. }
  split; [done|]. unfold _merge_into_pdf.
  destruct (has_PyPDF2 L); simpl; [|by eexists _, _].
  rewrite Hbody. destruct (merge_loop L paths [] [] fs) as [fs1 [tf m [e|]]]; [|done].
  simpl. destruct (cleanup tf fs1) as [fs2 [e'|[]]]; by eexists _, _.
Qed.

Lemma merge_refuses_unsupported_witness :
  let fs := regular_files ["/in/a.pdf"; "/in/notes.txt"] in
  ∃ fs' e, _merge_into_pdf (sample_libs true saving)
             ["/in/a.pdf"; "/in/notes.txt"] "/out/m.pdf" fs = (fs', inl e).
Proof.
  intros fs.
  apply (merge_refuses_unsupported (sample_libs true saving)
           ["/in/a.pdf"; "/in/notes.txt"] "/out/m.pdf" fs).
  exists "/in/notes.txt". split.
  - right. left.
  - apply (bool_decide_eq_false_1 (_ ∈ SUPPORTED_EXTENSIONS)). reflexivity.
Defined.

Lemma tiff_frames_loop_refuses (L : Libs) (paths : list string) (frames : list Frame)
    (fs : FS) :
  (∃ p, p ∈ paths ∧ suffix_lower p ∉ TIFF_EXTENSIONS) →
  ∃ e, tiff_frames_loop L paths frames fs = inl e.
Proof.
  revert frames. induction paths as [|path paths IH]; intros frames (p & Hp & Hun).
  { by apply elem_of_nil in Hp. }
  simpl. case_bool_decide as Htiff; simpl; [|by eexists].
  apply elem_of_cons in Hp as [<- | Hp]; [done|].
  destruct (Image_frames L path fs) as [e | [image [e|]]]; [by eexists | by eexists |].
  apply IH. eauto.
Qed.

(** X18. [_merge_into_tiff] writes nothing unless every path is a TIFF and
    there is at least one: given an empty list, or a list that holds any
    other file, it raises, leaves the file system as it was, and never
    calls the save. *)
Theorem merge_into_tiff_refuses (L : Libs) (save_tiff : list Frame → string → io unit)
    (paths : list string) (output_path : string) (fs : FS) :
  paths = [] ∨ (∃ p, p ∈ paths ∧ suffix_lower p ∉ TIFF_EXTENSIONS) →
  ∃ e, _merge_into_tiff L save_tiff paths output_path fs = (fs, inl e).
Proof.
  intros Hbad. unfold _merge_into_tiff.
  destruct (has_PIL L); simpl; [|by eexists].
  unfold io_bind, reading. destruct Hbad as [-> | Hun]; [by eexists|].
  destruct (tiff_frames_loop_refuses L paths [] fs Hun) as [e ->]. by eexists.
Qed.

Lemma merge_into_tiff_refuses_witness :
  let fs := regular_files ["/in/a.tif"; "/in/b.jpg"] in
  (∃ e, _merge_into_tiff (sample_libs true saving) saving [] "/out/m.tif" fs
        = (fs, inl e))
  ∧ (∃ e, _merge_into_tiff (sample_libs true saving) saving
            ["/in/a.tif"; "/in/b.jpg"] "/out/m.tif" fs = (fs, inl e)).
Proof.
  intros fs. split.
  - apply (merge_into_tiff_refuses (sample_libs true saving) saving [] "/out/m.tif" fs).
    by left.
  - apply (merge_into_tiff_refuses (sample_libs true saving) saving
             ["/in/a.tif"; "/in/b.jpg"] "/out/m.tif" fs).
    right. exists "/in/b.jpg". split.
    + right. left.
    + apply (bool_decide_eq_false_1 (_ ∈ TIFF_EXTENSIONS)). reflexivity.
Defined.

(* ===================================================================== *)
(** * Export: counts and targets                                          *)
(* ===================================================================== *)

Lemma for_enumerate_count {A} (body : nat → A → io unit) (index : nat)
    (items : list A) (stop : option exn) (exported n : nat) (fs fs' : FS) :
  for_enumerate body index items stop exported fs = (fs', inr n) →
  n = exported + length items ∧ stop = None.
Proof.
  revert index exported fs. induction items as [|x items IH]; intros index exported fs.
  - simpl. destruct stop; [done|]. intros [= _ <-]. split; [lia | done].
  - simpl. unfold io_bind. destruct (body index x fs) as [fs1 [e|[]]]; [done|].
    intros Hrun. apply IH in Hrun as [-> ->]. split; [lia | done].
Qed.

(** X19. A conversion that returns reports the number of files it wrote: as
    many as the PDF has pages, as many as the TIFF has frames, one for a
    JPG; and it returns only if the document was read to its end. *)
Theorem convert_file_counts (L : Libs) (path output_dir : string) (fs fs' : FS)
    (n : nat) :
  _convert_file_to_jpg L path output_dir fs = (fs', inr n) →
  (suffix_lower path = ".pdf"
   ∧ ∃ pages, fitz_pages L path fs = inr (pages, None) ∧ n = length pages)
  ∨ (suffix_lower path ∈ TIFF_EXTENSIONS
     ∧ ∃ frames, Image_frames L path fs = inr (frames, None) ∧ n = length frames)
  ∨ (suffix_lower path ∈ JPG_EXTENSIONS ∧ n = 1).
Proof.
  unfold _convert_file_to_jpg. case_bool_decide as Hpdf.
  { intros Hrun. left. split; [done|]. unfold _convert_pdf_to_jpg in Hrun.
    destruct (has_fitz L); [|done]. simpl in Hrun. unfold io_bind, reading in Hrun.
    destruct (fitz_pages L path fs) as [e | [pages stop]]; [done|]. simpl in Hrun.
    apply for_enumerate_count in Hrun as [-> ->]. by exists pages. }
  case_bool_decide as Htiff.
  { intros Hrun. right. left. split; [done|]. unfold _convert_tiff_to_jpg in Hrun.
    destruct (has_PIL L); [|done]. simpl in Hrun. unfold io_bind, reading in Hrun.
    destruct (Image_frames L path fs) as [e | [frames stop]]; [done|]. simpl in Hrun.
    apply for_enumerate_count in Hrun as [-> ->]. by exists frames. }
  case_bool_decide as Hjpg; [|done].
  intros Hrun. right. right. split; [done|].
  unfold _copy_jpg_to_output, io_bind, io_ret in Hrun.
  destruct (resolve_conflict _ fs) as [fs1 [e|target]]; [done|].
  destruct (copy2 L path target fs1) as [fs2 [e|[]]]; [done|].
  by injection Hrun as _ <-.
Qed.

Lemma convert_file_counts_witness :
  let fs := regular_files ["/in/x.pdf"] in
  ∃ pages, fitz_pages (sample_libs true saving) "/in/x.pdf" fs = inr (pages, None)
           ∧ 2 = length pages.
Proof.
  intros fs.
  destruct (_convert_file_to_jpg (sample_libs true saving) "/in/x.pdf" "/out" fs)
    as [fs' r] eqn:Hrun.
  assert (Hr : r = inr 2) by (vm_compute in Hrun; by injection Hrun as _ <-).
  subst r.
  destruct (convert_file_counts _ _ _ _ _ _ Hrun)
    as [[_ H] | [[Htiff _] | [Hjpg _]]]; [done | |].
  - exfalso. revert Htiff. apply (bool_decide_eq_false_1 (_ ∈ TIFF_EXTENSIONS)). reflexivity.
  - exfalso. revert Hjpg. apply (bool_decide_eq_false_1 (_ ∈ JPG_EXTENSIONS)). reflexivity.
Defined.

(** X20. A JPG is never copied over an existing file: the copy goes to a path
    at which no file exists, named after the source (with a numbered
    stem when that name is taken), and the result is [1] or the exception
    of the copy. *)
Theorem copy_jpg_never_overwrites (L : Libs) (path output_dir : string) (fs : FS) :
  Path.name path ≠ "" →
  ∃ target,
    exists_ fs target = false
    ∧ (exists_ fs (Path.joinpath output_dir (Path.name path)) = false →
       target = Path.joinpath output_dir (Path.name path))
    ∧ _copy_jpg_to_output L path output_dir fs
      = ((copy2 L path target fs).1,
         match (copy2 L path target fs).2 with
         | inl e => inl e
         | inr _ => inr 1
         end).
Proof.
  intros Hname.
  assert (Hjoined : Path.name (Path.joinpath output_dir (Path.name path)) ≠ "").
  { by rewrite name_joinpath by apply name_no_sep. }
  destruct (resolve_conflict_returns fs _ Hjoined) as (target & Hres & Hfree).
  exists target. split_and!; [done | |].
  - intros Hno. unfold resolve_conflict, _resolve_conflict_path in Hres.
    rewrite Hno in Hres. simpl in Hres. by injection Hres as <-.
  - unfold _copy_jpg_to_output, io_bind, io_ret. rewrite Hres.
    by destruct (copy2 L path target fs) as [fs2 [e|[]]].
Qed.

Lemma copy_jpg_never_overwrites_witness :
  let fs := regular_files ["/in/p.jpg"; "/out/p.jpg"] in
  ∃ target,
    exists_ fs target = false
    ∧ (exists_ fs (Path.joinpath "/out" (Path.name "/in/p.jpg")) = false →
       target = Path.joinpath "/out" (Path.name "/in/p.jpg"))
    ∧ _copy_jpg_to_output (sample_libs true saving) "/in/p.jpg" "/out" fs
      = ((copy2 (sample_libs true saving) "/in/p.jpg" target fs).1,
         match (copy2 (sample_libs true saving) "/in/p.jpg" target fs).2 with
         | inl e => inl e
         | inr _ => inr 1
         end).
Proof.
  intros fs.
  apply (copy_jpg_never_overwrites (sample_libs true saving) "/in/p.jpg" "/out" fs).
  discriminate.
Defined.

(* ===================================================================== *)
(** * Dropping files                                                      *)
(* ===================================================================== *)

Lemma eligible_filter_nonempty (fs : FS) (urls : list string) :
  filter (λ p, eligible fs p = true) (filter (λ p, PyStr.is_empty p = false) urls)
  = filter (λ p, eligible fs p = true) urls.
Proof.
  induction urls as [|p urls IH]; [done|].
  rewrite (filter_cons (λ p, PyStr.is_empty p = false)).
  rewrite (filter_cons (λ p, eligible fs p = true) p urls).
  destruct p as [|c p].
  - rewrite decide_False by done.
    rewrite decide_False; [done|].
    unfold eligible. rewrite andb_true_iff. by intros [_ H].
  - rewrite (decide_True (P := PyStr.is_empty (String c p) = false)) by done.
    rewrite filter_cons, IH. done.
Qed.

(** X12. A drop leaves the rows that adding the dropped paths would leave:
    the URLs without a local path change nothing; and a drop without
    URLs leaves the window as it is. *)
Theorem drop_adds_like_add (fs : FS) (urls : list string) (w : Window) :
  file_list (dropEvent fs true urls w) = file_list (_add_path_batch fs urls w).1
  ∧ dropEvent fs false urls w = w.
Proof.
  split; [|done]. unfold dropEvent. simpl.
  destruct (add_path_batch_unfold fs urls w) as (-> & _).
  destruct (add_path_batch_unfold fs (filter (λ p, PyStr.is_empty p = false) urls) w)
    as (-> & _).
  by rewrite !add_loop_spec, eligible_filter_nonempty.
Qed.

Lemma other_steps_keep_paths_unique_witness :
  let fs := regular_files ["/d/a.pdf"; "/d/b.tif"; "/d/c.jpg"] in
  let w := window_of [row_of true "/d/a.pdf"; row_of false "/d/b.tif"] in
  NoDup (_gather_paths (_add_path_batch fs ["/d/b.tif"; "/d/c.jpg"; "/d/c.jpg"] w).1)
  ∧ NoDup (_gather_paths (_remove_selected w))
  ∧ NoDup (_gather_paths (_move_selection 1 w)).
Proof.
  intros fs w.
  assert (Hnd : NoDup (_gather_paths w)).
  { by apply (bool_decide_unpack _). }
  destruct (other_steps_keep_paths_unique w fs Hnd) as (_ & Hadd & Hrem & Hmove).
  split_and!; [apply Hadd | apply Hrem | apply Hmove].
Defined.
